(** * upper/db leveled logging collector (logger.go)

    A shallow embedding of [logger.go]: the [LogLevel] constants, the
    [logLevels] name table, the [loggingCollector] with its setters, the two
    dispatch paths [log] and [logf], the fourteen per-level wrappers and the
    package [init] that reads [UPPER_DB_LOG]. *)

From Stdlib Require Import ZArith String Ascii List Lia DecimalString Sorted.
From Stdlib Require Import DecimalPos DecimalZ.
From stdpp Require Import base option list gmap strings.

Local Open Scope Z_scope.
Local Open Scope string_scope.

(** ** Log levels *)

(** [type LogLevel int8]: a level is an integer in [-128, 127].  The code
    only compares and stores levels, it never does arithmetic on them, so a
    level is carried as the [Z] it denotes. *)
Abbreviation LogLevel := Z (only parsing).

Definition is_int8 (z : Z) : Prop := -128 <= z <= 127.

(** Inside a Go [const ( ... )] block [iota] is the zero-based index of the
    constant specification it occurs in; a specification without an
    expression repeats the previous one, with [iota] advanced. *)
Definition iota (spec_index : nat) : Z := Z.of_nat spec_index.

(** The block at logger.go:33-42.  [LogLevelTrace] is specification 0 and is
    given explicitly; [LogLevelDebug] is specification 1 and is [iota]; the
    five that follow repeat [LogLevel = iota]. *)
Definition LogLevelTrace : LogLevel := -1.
Definition LogLevelDebug : LogLevel := iota 1.
Definition LogLevelInfo : LogLevel := iota 2.
Definition LogLevelWarn : LogLevel := iota 3.
Definition LogLevelError : LogLevel := iota 4.
Definition LogLevelFatal : LogLevel := iota 5.
Definition LogLevelPanic : LogLevel := iota 6.

(** The seven named levels in the order of their declaration. *)
Definition declared_levels : list LogLevel :=
  [LogLevelTrace; LogLevelDebug; LogLevelInfo; LogLevelWarn;
   LogLevelError; LogLevelFatal; LogLevelPanic].

(** [var logLevels = map[LogLevel]string{...}] *)
Definition logLevels : gmap Z string :=
  <[LogLevelTrace := "TRACE"]>
  (<[LogLevelDebug := "DEBUG"]>
  (<[LogLevelInfo := "INFO"]>
  (<[LogLevelWarn := "WARNING"]>
  (<[LogLevelError := "ERROR"]>
  (<[LogLevelFatal := "FATAL"]>
  (<[LogLevelPanic := "PANIC"]> ∅)))))).

(** Indexing a Go map with a missing key yields the zero value of the element
    type, here the empty string. *)
Definition logLevels_at (k : LogLevel) : string := default "" (logLevels !! k).

Definition defaultLogLevel : LogLevel := LogLevelWarn.

(** ** Strings *)

Definition newline : string := String (ascii_of_nat 10) EmptyString.

Definition HasPrefix (s p : string) : Prop := exists rest, s = p ++ rest.

Definition Contains (s sub : string) : Prop :=
  exists before after, s = before ++ sub ++ after.

(** Decimal rendering of an integer, as the [%d] verb prints it. *)
Definition itoa (z : Z) : string := NilZero.string_of_int (Z.to_int z).

(** Values that travel in a [...interface{}] argument list. *)
Inductive Value : Type :=
| VString (s : string)
| VInt (z : Z)
| VBool (b : bool)
| VNil.

Definition bool_text (b : bool) : string := if b then "true" else "false".

(** [fmt.Sprintf] restricted to the verbs [%s] and [%d] (and [%%]), which is
    all that logger.go uses: an operand is printed in its default format, a
    missing operand as [%!v(MISSING)] with the verb letter in place of v. *)
Definition verb_text (verb : ascii) (operand : option Value) : string :=
  match operand with
  | Some (VString s) => s
  | Some (VInt z) => itoa z
  | Some (VBool b) => bool_text b
  | Some VNil => "%!" ++ String verb "(<nil>)"
  | None => "%!" ++ String verb "(MISSING)"
  end.

Fixpoint Sprintf (format : string) (operands : list Value) : string :=
  match format with
  | EmptyString => EmptyString
  | String "%" (String "%" rest) => String "%" (Sprintf rest operands)
  | String "%" (String verb rest) =>
      verb_text verb (head operands) ++ Sprintf rest (tail operands)
  | String c rest => String c (Sprintf rest operands)
  end.

(** [fmt.Sprint]: the operands in their default formats, with a space between
    two operands when neither of them is a string. *)
Definition value_text (v : Value) : string :=
  match v with
  | VString s => s
  | VInt z => itoa z
  | VBool b => bool_text b
  | VNil => "<nil>"
  end.

Definition is_string (v : Value) : bool :=
  match v with
  | VString _ => true
  | _ => false
  end.

Fixpoint Sprint_after (previous_is_string : bool) (operands : list Value)
  : string :=
  match operands with
  | [] => EmptyString
  | v :: rest =>
      (if negb previous_is_string && negb (is_string v) then " " else "") ++
      value_text v ++ Sprint_after (is_string v) rest
  end.

Definition Sprint (operands : list Value) : string :=
  Sprint_after true operands.


(** ** The backend interface *)

Module Logger.

(** What a backend operation does to control once it has written: it
    returns to the collector, it ends the process ([os.Exit]), or it
    panics with a value. *)
Inductive Outcome : Type :=
| Returns
| Exits (code : Z)
| Panics (v : string).

(** [type Logger interface]: six methods.  A backend writes to the world
    outside the collector, of type [W]; it is handed the message only. *)
Record t (W : Type) : Type := Build {
  Fatal : list Value -> W -> W * Outcome;
  Fatalf : string -> list Value -> W -> W * Outcome;
  Print : list Value -> W -> W * Outcome;
  Printf : string -> list Value -> W -> W * Outcome;
  Panic : list Value -> W -> W * Outcome;
  Panicf : string -> list Value -> W -> W * Outcome
}.
Arguments Build {W}.
Arguments Fatal {W}.
Arguments Fatalf {W}.
Arguments Print {W}.
Arguments Printf {W}.
Arguments Panic {W}.
Arguments Panicf {W}.

(** A method call with its arguments, as data. *)
Inductive Call : Type :=
| CFatal (v : list Value)
| CFatalf (format : string) (v : list Value)
| CPrint (v : list Value)
| CPrintf (format : string) (v : list Value)
| CPanic (v : list Value)
| CPanicf (format : string) (v : list Value).

Inductive Kind : Type := KPrint | KFatal | KPanic.

Definition kind (c : Call) : Kind :=
  match c with
  | CFatal _ | CFatalf _ _ => KFatal
  | CPrint _ | CPrintf _ _ => KPrint
  | CPanic _ | CPanicf _ _ => KPanic
  end.


Definition run {W} (l : t W) (c : Call) : W -> W * Outcome :=
  match c with
  | CFatal v => Fatal l v
  | CFatalf f v => Fatalf l f v
  | CPrint v => Print l v
  | CPrintf f v => Printf l f v
  | CPanic v => Panic l v
  | CPanicf f v => Panicf l f v
  end.

(** The text that leads a call: the format string of a formatted call, the
    first operand of a plain one when that is a string. *)
Definition head_text (c : Call) : string :=
  match c with
  | CFatalf f _ | CPrintf f _ | CPanicf f _ => f
  | CFatal v | CPrint v | CPanic v =>
      match v with
      | VString s :: _ => s
      | _ => ""
      end
  end.

(** The operands of a call: all of them for a formatted call, those after
    the leading text for a plain one. *)
Definition operands (c : Call) : list Value :=
  match c with
  | CFatalf _ v | CPrintf _ v | CPanicf _ v => v
  | CFatal v | CPrint v | CPanic v => tail v
  end.

(** A backend all of whose panic and fatal operations return. *)
Definition PanicFatalReturn {W} (l : t W) : Prop :=
  forall c w, kind c <> KPrint -> snd (run l c w) = Returns.

(** A backend whose panic operations return. *)
Definition PanicReturns {W} (l : t W) : Prop :=
  forall c w, kind c = KPanic -> snd (run l c w) = Returns.

End Logger.

(** ** Call stacks *)

(** A frame of the goroutine's stack: the file and line it is executing. *)
Record Frame : Type := { file : string; line : Z }.

(** [runtime.Caller(skip)] reports the frame [skip] levels above the function
    that calls it (frame 0 is that function itself); [ok] is false when the
    runtime has no such frame to report.  The stack has its innermost frame
    first. *)
Definition Caller (stack : list Frame) (skip : nat) : option Frame :=
  stack !! skip.

Definition logger_go (at_line : Z) : Frame :=
  {| file := "logger.go"; line := at_line |}.

(** ** The collector *)

Module loggingCollector.
Section WithWorld.

Context {W : Type}.

(** [var defaultLogger Logger = log.New(os.Stdout, "", log.LstdFlags)]: the
    value [log.New] returns is never nil; what its methods do is the
    standard library's business and is left open. *)
Variable stdLogger : Logger.t W.

Definition defaultLogger : option (Logger.t W) := Some stdLogger.

(** [type loggingCollector struct]; the [logger] field holds an interface
    value, which may be nil. *)
Record t : Type := Build { level : LogLevel; logger : option (Logger.t W) }.

(** One backend invocation, kept for counting. *)
Record Event : Type := { target : Logger.t W; call : Logger.Call }.

(** The collector [c] the methods are called on, the world the backends
    write to, and the backend invocations made so far, oldest first. *)
Record State : Type := { coll : t; world : W; calls : list Event }.

Inductive PanicValue : Type :=
| BackendPanic (v : string)
| NilDereference.

(** How a run ends: the function returns, the process exits, or a panic
    unwinds the caller. *)
Inductive Result (A : Type) : Type :=
| Ok (a : A) (s : State)
| Exited (code : Z) (s : State)
| Panicked (v : PanicValue) (s : State).
Arguments Ok {A}.
Arguments Exited {A}.
Arguments Panicked {A}.

Definition M (A : Type) : Type := State -> Result A.

Definition ret {A} (a : A) : M A := fun s => Ok a s.

Definition bind {A B} (m : M A) (k : A -> M B) : M B :=
  fun s =>
    match m s with
    | Ok a s' => k a s'
    | Exited code s' => Exited code s'
    | Panicked v s' => Panicked v s'
    end.

Notation "'let*' x ':=' m 'in' k" := (bind m (fun x => k))
  (at level 10, x name, m at level 100, k at level 200).
Notation "'run*' m 'in' k" := (bind m (fun _ => k))
  (at level 10, m at level 100, k at level 200).

Definition when (b : bool) (m : M unit) : M unit := if b then m else ret tt.

Definition final {A} (r : Result A) : State :=
  match r with
  | Ok _ s | Exited _ s | Panicked _ s => s
  end.

Definition returned {A} (r : Result A) : bool :=
  match r with
  | Ok _ _ => true
  | _ => false
  end.

(** Calling a method through an interface value: a nil interface makes the
    runtime panic; otherwise the backend runs on the world and the
    invocation is recorded. *)
Definition invoke (l : option (Logger.t W)) (c : Logger.Call) : M unit :=
  fun s =>
    match l with
    | None => Panicked NilDereference s
    | Some b =>
        let (w', o) := Logger.run b c (world s) in
        let s' := {| coll := coll s; world := w';
                     calls := calls s ++ [{| target := b; call := c |}] |} in
        match o with
        | Logger.Returns => Ok tt s'
        | Logger.Exits code => Exited code s'
        | Logger.Panics v => Panicked (BackendPanic v) s'
        end
    end.

(** logger.go:106 *)
Definition Enabled (lvl : LogLevel) : M bool :=
  fun s => Ok (lvl >=? level (coll s)) s.

(** logger.go:110 *)
Definition SetLevel (lvl : LogLevel) : M unit :=
  fun s => Ok tt {| coll := {| level := lvl; logger := logger (coll s) |};
                    world := world s; calls := calls s |}.

(** logger.go:114 *)
Definition Level : M LogLevel := fun s => Ok (level (coll s)) s.

(** logger.go:118 *)
Definition Logger : M (option (Logger.t W)) :=
  fun s =>
    match logger (coll s) with
    | None => Ok defaultLogger s
    | Some b => Ok (Some b) s
    end.

(** logger.go:125 *)
Definition SetLogger (l : option (Logger.t W)) : M unit :=
  fun s => Ok tt {| coll := {| level := level (coll s); logger := l |};
                    world := world s; calls := calls s |}.

(** The text [logf] builds at logger.go:130-134. *)
Definition logf_format (stack : list Frame) (lvl : LogLevel) (f : string)
  : string :=
  let format := logLevels_at lvl ++ newline ++ f in
  let format :=
    match Caller stack 2 with
    | Some fr =>
        Sprintf ("log_level=%s file=%s:%d" ++ newline ++ "%s")
                [VString (logLevels_at lvl); VString (file fr);
                 VInt (line fr); VString f]
    | None => format
    end in
  "upper/db: " ++ format.

(** logger.go:129; [stack] is the stack as [logf] executes line 131. *)
Definition logf (stack : list Frame) (lvl : LogLevel) (f : string)
  (v : list Value) : M unit :=
  let format := logf_format stack lvl f in
  run* when (lvl >=? LogLevelPanic)
         (let* l := Logger in invoke l (Logger.CPanicf format v)) in
  run* when (lvl >=? LogLevelFatal)
         (let* l := Logger in invoke l (Logger.CFatalf format v)) in
  let* en := Enabled lvl in
  when en (let* l := Logger in invoke l (Logger.CPrintf format v)).

(** The text [log] builds at logger.go:148-152. *)
Definition log_format (stack : list Frame) (lvl : LogLevel) : string :=
  let format := logLevels_at lvl ++ newline in
  let format :=
    match Caller stack 2 with
    | Some fr =>
        Sprintf ("log_level=%s file=%s:%d" ++ newline)
                [VString (logLevels_at lvl); VString (file fr);
                 VInt (line fr)]
    | None => format
    end in
  "upper/db: " ++ format.

(** logger.go:147; [stack] is the stack as [log] executes line 149. *)
Definition log (stack : list Frame) (lvl : LogLevel) (v : list Value)
  : M unit :=
  let format := log_format stack lvl in
  let v := ([VString format] ++ v)%list in
  run* when (lvl >=? LogLevelPanic)
         (let* l := Logger in invoke l (Logger.CPanic v)) in
  run* when (lvl >=? LogLevelFatal)
         (let* l := Logger in invoke l (Logger.CFatal v)) in
  let* en := Enabled lvl in
  when en (let* l := Logger in invoke l (Logger.CPrint v)).

(** The per-level wrappers, logger.go:166-213.  [stack] is the caller's
    stack at the call; the wrapper's own frame and then the frame of the
    dispatch function go on top of it. *)
Definition Debugf stack f v :=
  logf (logger_go 131 :: logger_go 167 :: stack) LogLevelDebug f v.
Definition Debug stack v :=
  log (logger_go 149 :: logger_go 170 :: stack) LogLevelDebug v.
Definition Tracef stack f v :=
  logf (logger_go 131 :: logger_go 174 :: stack) LogLevelTrace f v.
Definition Trace stack v :=
  log (logger_go 149 :: logger_go 177 :: stack) LogLevelDebug v.
Definition Infof stack f v :=
  logf (logger_go 131 :: logger_go 181 :: stack) LogLevelInfo f v.
Definition Info stack v :=
  log (logger_go 149 :: logger_go 184 :: stack) LogLevelInfo v.
Definition Warnf stack f v :=
  logf (logger_go 131 :: logger_go 188 :: stack) LogLevelWarn f v.
Definition Warn stack v :=
  log (logger_go 149 :: logger_go 191 :: stack) LogLevelWarn v.
Definition Errorf stack f v :=
  logf (logger_go 131 :: logger_go 195 :: stack) LogLevelError f v.
Definition Error stack v :=
  log (logger_go 149 :: logger_go 198 :: stack) LogLevelError v.
Definition Fatalf stack f v :=
  logf (logger_go 131 :: logger_go 202 :: stack) LogLevelFatal f v.
Definition Fatal stack v :=
  log (logger_go 149 :: logger_go 205 :: stack) LogLevelFatal v.
Definition Panicf stack f v :=
  logf (logger_go 131 :: logger_go 209 :: stack) LogLevelPanic f v.
Definition Panic stack v :=
  log (logger_go 149 :: logger_go 212 :: stack) LogLevelPanic v.

(** [var defaultLoggingCollector], logger.go:215 *)
Definition defaultLoggingCollector : t :=
  {| level := defaultLogLevel; logger := defaultLogger |}.

(** [os.Getenv]: the value of the variable, empty when it is not set. *)
Definition Getenv (env : gmap string string) (name : string) : string :=
  default "" (env !! name).

(** The [for k := range logLevels] loop of [init]; [order] is the order in
    which the runtime happens to visit the keys. *)
Fixpoint init_range (order : list LogLevel) (logLevel : string) : M unit :=
  match order with
  | [] => ret tt
  | k :: rest =>
      if String.eqb (logLevels_at k) logLevel
      then SetLevel k
      else init_range rest logLevel
  end.

(** [func init()], logger.go:224; [Log()] is the collector of the state. *)
Definition init (env : gmap string string) (order : list LogLevel)
  : M unit :=
  let logLevel := Getenv env "UPPER_DB_LOG" in
  if negb (String.eqb logLevel "")
  then init_range order logLevel
  else ret tt.

(** The state in which package initialization starts. *)
Definition startup (w : W) : State :=
  {| coll := defaultLoggingCollector; world := w; calls := [] |}.

(** The backend an emit resolves to. *)
Definition backend (c : t) : Logger.t W := default stdLogger (logger c).

Definition event (b : Logger.t W) (c : Logger.Call) : Event :=
  {| target := b; call := c |}.

(** The invocations a run added to those recorded in the state it started
    from. *)
Definition emitted {A} (s : State) (r : Result A) : list Event :=
  drop (length (calls s)) (calls (final r)).





(** Whether a run ended in the runtime panic of a call through a nil
    interface. *)
Definition nil_failure {A} (r : Result A) : bool :=
  match r with
  | Panicked NilDereference _ => true
  | _ => false
  end.

End WithWorld.

Arguments Ok {W A}.
Arguments Exited {W A}.
Arguments Panicked {W A}.

Notation "'let*' x ':=' m 'in' k" := (bind m (fun x => k))
  (at level 10, x name, m at level 100, k at level 200).
Notation "'run*' m 'in' k" := (bind m (fun _ => k))
  (at level 10, m at level 100, k at level 200).

End loggingCollector.

(** ** Test doubles for the backend *)

Module Doubles.

(** The world of the doubles: the lines written so far, oldest first. *)
Definition Out : Type := list string.

Definition write (name op : string) (o : Logger.Outcome)
  : Out -> Out * Logger.Outcome :=
  fun w => (List.app w [name ++ "." ++ op], o).

(** A backend every operation of which records its name and returns. *)
Definition recorder (name : string) : Logger.t Out :=
  Logger.Build
    (fun _ => write name "Fatal" Logger.Returns)
    (fun _ _ => write name "Fatalf" Logger.Returns)
    (fun _ => write name "Print" Logger.Returns)
    (fun _ _ => write name "Printf" Logger.Returns)
    (fun _ => write name "Panic" Logger.Returns)
    (fun _ _ => write name "Panicf" Logger.Returns).

(** A backend that ends its operations as [*log.Logger] does: print returns,
    fatal exits with status 1, and panic panics with the message it has
    formatted, [Sprint] of the operands or [Sprintf] of the format and the
    operands.  What it writes is cut down to the name of the operation. *)
Definition exiting (name : string) : Logger.t Out :=
  Logger.Build
    (fun _ => write name "Fatal" (Logger.Exits 1))
    (fun _ _ => write name "Fatalf" (Logger.Exits 1))
    (fun _ => write name "Print" Logger.Returns)
    (fun _ _ => write name "Printf" Logger.Returns)
    (fun v => write name "Panic" (Logger.Panics (Sprint v)))
    (fun f v => write name "Panicf" (Logger.Panics (Sprintf f v))).

(** A backend whose formatted panic and fatal operations end as those of
    [exiting] do and whose plain ones return. *)
Definition half_returning (name : string) : Logger.t Out :=
  Logger.Build
    (fun _ => write name "Fatal" Logger.Returns)
    (fun _ _ => write name "Fatalf" (Logger.Exits 1))
    (fun _ => write name "Print" Logger.Returns)
    (fun _ _ => write name "Printf" Logger.Returns)
    (fun _ => write name "Panic" Logger.Returns)
    (fun f v => write name "Panicf" (Logger.Panics (Sprintf f v))).

Definition half : Logger.t Out := half_returning "half".
Definition std : Logger.t Out := exiting "std".
Definition mock : Logger.t Out := recorder "mock".

Definition state_with (threshold : LogLevel) (l : option (Logger.t Out))
  : loggingCollector.State :=
  {| loggingCollector.coll := loggingCollector.Build threshold l;
     loggingCollector.world := [];
     loggingCollector.calls := [] |}.

Definition main_go (at_line : Z) : Frame :=
  {| file := "main.go"; line := at_line |}.

End Doubles.


(** ** The collector with backends that can reach it *)

(** A backend is handed the message only, but it runs in the same process as
    the collector and can get at it through [Log()]: an operation of a
    backend may call [SetLevel] or [SetLogger] before it returns.  Here a
    backend operation runs on the whole state, the collector included, and
    the [logger] field holds a reference to a backend object rather than the
    object. *)
Module sharedCollector.
Section WithWorld.

Context {W : Type}.

(** What a non-nil interface value of type [Logger] refers to. *)
Definition Ref : Type := nat.

Record t : Type := Build { level : LogLevel; logger : option Ref }.

Record Event : Type := { target : Ref; call : Logger.Call }.

Record State : Type := { coll : t; world : W; calls : list Event }.

(** The backend objects, by reference, and the reference held by the package
    variable [defaultLogger]. *)
Variable backends : Ref -> Logger.t State.
Variable defaultLogger : Ref.

Inductive PanicValue : Type :=
| BackendPanic (v : string)
| NilDereference.

Inductive Result (A : Type) : Type :=
| Ok (a : A) (s : State)
| Exited (code : Z) (s : State)
| Panicked (v : PanicValue) (s : State).
Arguments Ok {A}.
Arguments Exited {A}.
Arguments Panicked {A}.

Definition M (A : Type) : Type := State -> Result A.

Definition ret {A} (a : A) : M A := fun s => Ok a s.

Definition bind {A B} (m : M A) (k : A -> M B) : M B :=
  fun s =>
    match m s with
    | Ok a s' => k a s'
    | Exited code s' => Exited code s'
    | Panicked v s' => Panicked v s'
    end.

Notation "'let*' x ':=' m 'in' k" := (bind m (fun x => k))
  (at level 10, x name, m at level 100, k at level 200).
Notation "'run*' m 'in' k" := (bind m (fun _ => k))
  (at level 10, m at level 100, k at level 200).

Definition when (b : bool) (m : M unit) : M unit := if b then m else ret tt.

Definition final {A} (r : Result A) : State :=
  match r with
  | Ok _ s | Exited _ s | Panicked _ s => s
  end.

Definition returned {A} (r : Result A) : bool :=
  match r with
  | Ok _ _ => true
  | _ => false
  end.

(** Calling a method through an interface value: the invocation is recorded
    and the operation of the object referred to runs on the state. *)
Definition invoke (l : option Ref) (c : Logger.Call) : M unit :=
  fun s =>
    match l with
    | None => Panicked NilDereference s
    | Some r =>
        let s1 := {| coll := coll s; world := world s;
                     calls := calls s ++ [{| target := r; call := c |}] |} in
        let (s2, o) := Logger.run (backends r) c s1 in
        match o with
        | Logger.Returns => Ok tt s2
        | Logger.Exits code => Exited code s2
        | Logger.Panics v => Panicked (BackendPanic v) s2
        end
    end.

(** logger.go:106 *)
Definition Enabled (lvl : LogLevel) : M bool :=
  fun s => Ok (lvl >=? level (coll s)) s.

(** logger.go:110 *)
Definition SetLevel (lvl : LogLevel) : M unit :=
  fun s => Ok tt {| coll := {| level := lvl; logger := logger (coll s) |};
                    world := world s; calls := calls s |}.

(** logger.go:118 *)
Definition Logger : M (option Ref) :=
  fun s =>
    match logger (coll s) with
    | None => Ok (Some defaultLogger) s
    | Some r => Ok (Some r) s
    end.

(** logger.go:125 *)
Definition SetLogger (l : option Ref) : M unit :=
  fun s => Ok tt {| coll := {| level := level (coll s); logger := l |};
                    world := world s; calls := calls s |}.

(** logger.go:129 *)
Definition logf (stack : list Frame) (lvl : LogLevel) (f : string)
  (v : list Value) : M unit :=
  let format := loggingCollector.logf_format stack lvl f in
  run* when (lvl >=? LogLevelPanic)
         (let* l := Logger in invoke l (Logger.CPanicf format v)) in
  run* when (lvl >=? LogLevelFatal)
         (let* l := Logger in invoke l (Logger.CFatalf format v)) in
  let* en := Enabled lvl in
  when en (let* l := Logger in invoke l (Logger.CPrintf format v)).

(** logger.go:147 *)
Definition log (stack : list Frame) (lvl : LogLevel) (v : list Value)
  : M unit :=
  let format := loggingCollector.log_format stack lvl in
  let v := ([VString format] ++ v)%list in
  run* when (lvl >=? LogLevelPanic)
         (let* l := Logger in invoke l (Logger.CPanic v)) in
  run* when (lvl >=? LogLevelFatal)
         (let* l := Logger in invoke l (Logger.CFatal v)) in
  let* en := Enabled lvl in
  when en (let* l := Logger in invoke l (Logger.CPrint v)).

(** The reference an emit resolves to. *)
Definition resolved (c : t) : Ref := default defaultLogger (logger c).

(** A backend object none of whose operations changes a field of the
    collector. *)
Definition KeepsCollector (b : Logger.t State) : Prop :=
  forall (c : Logger.Call) (s : State), coll (fst (Logger.run b c s)) = coll s.

(** The backend the collector of a state resolves to changes no field of the
    collector. *)
Definition resolves_to_keeper (s : State) : Prop :=
  KeepsCollector (backends (resolved (coll s))).

(** A computation that ends with the collector it started with, when started
    where the resolved backend keeps the collector. *)
Definition frames {A} (m : M A) : Prop :=
  forall s : State, resolves_to_keeper s -> coll (final (m s)) = coll s.

End WithWorld.

Arguments Ok {W A}.
Arguments Exited {W A}.
Arguments Panicked {W A}.

End sharedCollector.

(** How the collector whose backends are handed the outside world only sits
    in the one whose backends can reach it: a backend of the first kind is a
    backend of the second that passes the collector on as it found it, and a
    state of the second, read through the objects the references stand for,
    is a state of the first. *)
Module Embedding.
Section WithObjects.

Context {W : Type}.

(** The object each reference stands for. *)
Variable objects : sharedCollector.Ref -> Logger.t W.

Definition lift_op (op : W -> W * Logger.Outcome)
  : @sharedCollector.State W -> @sharedCollector.State W * Logger.Outcome :=
  fun s =>
    let (w', o) := op (sharedCollector.world s) in
    ({| sharedCollector.coll := sharedCollector.coll s;
        sharedCollector.world := w';
        sharedCollector.calls := sharedCollector.calls s |}, o).

Definition lift (b : Logger.t W) : Logger.t (@sharedCollector.State W) :=
  Logger.Build
    (fun v => lift_op (Logger.Fatal b v))
    (fun f v => lift_op (Logger.Fatalf b f v))
    (fun v => lift_op (Logger.Print b v))
    (fun f v => lift_op (Logger.Printf b f v))
    (fun v => lift_op (Logger.Panic b v))
    (fun f v => lift_op (Logger.Panicf b f v)).

Definition read_event (e : sharedCollector.Event)
  : @loggingCollector.Event W :=
  {| loggingCollector.target := objects (sharedCollector.target e);
     loggingCollector.call := sharedCollector.call e |}.

Definition read_state (s : @sharedCollector.State W)
  : @loggingCollector.State W :=
  {| loggingCollector.coll :=
       {| loggingCollector.level :=
            sharedCollector.level (sharedCollector.coll s);
          loggingCollector.logger :=
            objects <$> sharedCollector.logger (sharedCollector.coll s) |};
     loggingCollector.world := sharedCollector.world s;
     loggingCollector.calls := map read_event (sharedCollector.calls s) |}.

Definition read_panic (v : sharedCollector.PanicValue)
  : loggingCollector.PanicValue :=
  match v with
  | sharedCollector.BackendPanic x => loggingCollector.BackendPanic x
  | sharedCollector.NilDereference => loggingCollector.NilDereference
  end.

Definition read_result {A} (r : @sharedCollector.Result W A)
  : @loggingCollector.Result W A :=
  match r with
  | sharedCollector.Ok a s => loggingCollector.Ok a (read_state s)
  | sharedCollector.Exited code s =>
      loggingCollector.Exited code (read_state s)
  | sharedCollector.Panicked v s =>
      loggingCollector.Panicked (read_panic v) (read_state s)
  end.

(** Two computations, one in each collector, that do the same. *)
Definition agree {A} (m : @sharedCollector.M W A)
    (m' : @loggingCollector.M W A) : Prop :=
  forall s, read_result (m s) = m' (read_state s).

End WithObjects.
End Embedding.

(** Backend objects for the collector they can reach. *)
Module SharedDoubles.

Definition State : Type := @sharedCollector.State unit.

Definition unchanged (s : State) : State * Logger.Outcome :=
  (s, Logger.Returns).

(** A backend every operation of which returns and changes nothing. *)
Definition quiet : Logger.t State :=
  Logger.Build (fun _ => unchanged) (fun _ _ => unchanged)
    (fun _ => unchanged) (fun _ _ => unchanged)
    (fun _ => unchanged) (fun _ _ => unchanged).

(** What [Log().SetLevel(LogLevelTrace)], called from inside an operation,
    does to the state before the operation returns. *)
Definition lower_threshold (s : State) : State * Logger.Outcome :=
  (sharedCollector.final (sharedCollector.SetLevel LogLevelTrace s),
   Logger.Returns).

(** A backend whose print operations turn the threshold down to Trace, so
    that later calls are all printed, and return. *)
Definition meddling : Logger.t State :=
  Logger.Build (fun _ => unchanged) (fun _ _ => unchanged)
    (fun _ => lower_threshold) (fun _ _ => lower_threshold)
    (fun _ => unchanged) (fun _ _ => unchanged).

Definition state_with (threshold : LogLevel) (l : option sharedCollector.Ref)
  : State :=
  {| sharedCollector.coll := sharedCollector.Build threshold l;
     sharedCollector.world := tt;
     sharedCollector.calls := [] |}.

End SharedDoubles.

(** ** The dispatch as the specification words it *)

Import loggingCollector.

(** The three checks in their order, each adding its invocation when it
    holds: panic, then fatal, then the threshold-gated print. *)
Definition cascade (threshold lvl : LogLevel)
  (panic_call fatal_call print_call : Logger.Call) : list Logger.Call :=
  ((if lvl >=? LogLevelPanic then [panic_call] else []) ++
   (if lvl >=? LogLevelFatal then [fatal_call] else []) ++
   (if lvl >=? threshold then [print_call] else []))%list.

Definition cascade_f (threshold lvl : LogLevel) (format : string)
  (v : list Value) : list Logger.Call :=
  cascade threshold lvl (Logger.CPanicf format v) (Logger.CFatalf format v)
    (Logger.CPrintf format v).

Definition cascade_plain (threshold lvl : LogLevel) (v : list Value)
  : list Logger.Call :=
  cascade threshold lvl (Logger.CPanic v) (Logger.CFatal v) (Logger.CPrint v).

(** Of a list of invocations made one after the other on backend [b], those
    that are reached: each one up to and including the first that does not
    return. *)
Fixpoint reached {W} (b : Logger.t W) (cs : list Logger.Call) (w : W)
  : list Logger.Call :=
  match cs with
  | [] => []
  | c :: rest =>
      c :: match Logger.run b c w with
           | (w', Logger.Returns) => reached b rest w'
           | _ => []
           end
  end.

(** The invocations, made in turn through the monad. *)
Fixpoint invoke_all {W} (b : Logger.t W) (cs : list Logger.Call) : M unit :=
  match cs with
  | [] => ret tt
  | c :: rest => run* invoke (Some b) c in invoke_all b rest
  end.

(** The level a display name stands for, read off the list of names
    [TRACE, DEBUG, INFO, WARNING, ERROR, FATAL, PANIC]. *)
Definition level_names : list (string * LogLevel) :=
  [("TRACE", LogLevelTrace); ("DEBUG", LogLevelDebug); ("INFO", LogLevelInfo);
   ("WARNING", LogLevelWarn); ("ERROR", LogLevelError);
   ("FATAL", LogLevelFatal); ("PANIC", LogLevelPanic)].

Definition level_named (name : string) : option LogLevel :=
  snd <$> List.find (fun p => String.eqb (fst p) name) level_names.

Definition returns (o : Logger.Outcome) : bool :=
  match o with
  | Logger.Returns => true
  | _ => false
  end.

(** Whether a text is free of the percent sign, the character that starts a
    formatting verb. *)
Fixpoint no_percent (s : string) : bool :=
  match s with
  | EmptyString => true
  | String c rest => negb (Ascii.eqb c "%") && no_percent rest
  end.

(** ** The benchmark fixtures (postgresql/benchmark_test.go) *)

Module Benchmark.

Definition testRows : Z := 1000.

(** benchmark_test.go:16; [i % testRows] is Go's remainder, which truncates
    toward zero and takes the sign of [i]. *)
Definition updatedArtistN (i : Z) : string :=
  Sprintf "Updated Artist %d" [VInt (Z.rem i testRows)].

(** benchmark_test.go:20 *)
Definition artistN (i : Z) : string :=
  Sprintf "Artist %d" [VInt (Z.rem i testRows)].

Definition truncate_stmt : string :=
  "TRUNCATE TABLE " ++ String (ascii_of_nat 34) "artist" ++
  String (ascii_of_nat 34) " RESTART IDENTITY".

Definition insert_stmt : string :=
  "INSERT INTO " ++ String (ascii_of_nat 34) "artist" ++
  String (ascii_of_nat 34) " (" ++ String (ascii_of_nat 34) "name" ++
  String (ascii_of_nat 34) ") VALUES($1)".

(** A statement handed to the driver, with its arguments. *)
Definition Stmt : Type := (string * list Value)%type.

Section Fixture.

(** The database server and everything else outside the program, the open
    session, and the errors of the adapter and the driver: all three belong
    to the collaborators and are left open. *)
Context {D Sess Err : Type}.

(** [db.Open(Adapter, settings)] *)
Variable Open : D -> D * (Sess + Err).

(** [driver.Exec(query, args...)] on the [sqlx.DB] that [sess.Driver()]
    holds; the [sql.Result] is dropped by every caller in this file. *)
Variable Exec : Sess -> string -> list Value -> D -> D * option Err.

(** What a run of the fixture leaves: the world, the statements handed to the
    driver, oldest first, and the pair the function returns, a session or an
    error. *)
Record Run : Type := { db : D; issued : list Stmt; result : Sess + Err }.

(** The [for i := 0; i < testRows; i++] loop of [connectAndAddFakeRows],
    from [i] on, with [remaining] rounds to go. *)
Fixpoint add_rows (remaining : nat) (i : Z) (sess : Sess) (d : D)
    (done : list Stmt) : Run :=
  match remaining with
  | O => {| db := d; issued := done; result := inl sess |}
  | S remaining' =>
      let args := [VString (artistN i)] in
      let done' := (done ++ [(insert_stmt, args)])%list in
      match Exec sess insert_stmt args d with
      | (d', Some err) => {| db := d'; issued := done'; result := inr err |}
      | (d', None) => add_rows remaining' (i + 1) sess d' done'
      end
  end.

(** benchmark_test.go:24 *)
Definition connectAndAddFakeRows (d : D) : Run :=
  match Open d with
  | (d0, inr err) => {| db := d0; issued := []; result := inr err |}
  | (d0, inl sess) =>
      match Exec sess truncate_stmt [] d0 with
      | (d1, Some err) =>
          {| db := d1; issued := [(truncate_stmt, [])]; result := inr err |}
      | (d1, None) =>
          add_rows (Z.to_nat testRows) 0 sess d1 [(truncate_stmt, [])]
      end
  end.

End Fixture.

(** The statements of a complete run: the truncation, then one insertion for
    each of the indices 0 to [testRows - 1] in turn. *)
Definition inserts_from (i : Z) (n : nat) : list Stmt :=
  map (fun k => (insert_stmt, [VString (artistN (i + Z.of_nat k))])) (seq 0 n).

Definition full_plan : list Stmt :=
  (truncate_stmt, []) :: inserts_from 0 (Z.to_nat testRows).

End Benchmark.

(** * Properties *)

(** ** Strings *)

Lemma append_assoc (a b c : string) : (a ++ b) ++ c = a ++ (b ++ c).
Proof.
  induction a as [| ch a IH]; [reflexivity |].
  change (String ch ((a ++ b) ++ c) = String ch (a ++ (b ++ c))).
  by rewrite IH.
Qed.

Lemma append_nil_r (a : string) : a ++ "" = a.
Proof.
  induction a as [| ch a IH]; [reflexivity |].
  change (String ch (a ++ "") = String ch a). by rewrite IH.
Qed.

Lemma Contains_append_l (p s sub : string) :
  Contains s sub -> Contains (p ++ s) sub.
Proof.
  intros (before & after & ->). exists (p ++ before), after.
  by rewrite append_assoc.
Qed.

Lemma Contains_append_r (s q sub : string) :
  Contains s sub -> Contains (s ++ q) sub.
Proof.
  intros (before & after & ->). exists before, (after ++ q).
  by rewrite !append_assoc.
Qed.

Lemma Contains_here (sub after : string) : Contains (sub ++ after) sub.
Proof. by exists "", after. Qed.

(** ** Level values *)

Lemma geb_false (a b : Z) : a < b -> (a >=? b) = false.
Proof. intros H. rewrite Z.geb_leb. apply Z.leb_gt. lia. Qed.

Lemma geb_true (a b : Z) : b <= a -> (a >=? b) = true.
Proof. intros H. rewrite Z.geb_leb. apply Z.leb_le. lia. Qed.

Lemma level_values : declared_levels = [-1; 1; 2; 3; 4; 5; 6].
Proof. reflexivity. Qed.

Lemma logLevels_at_declared :
  map logLevels_at declared_levels =
  ["TRACE"; "DEBUG"; "INFO"; "WARNING"; "ERROR"; "FATAL"; "PANIC"].
Proof. reflexivity. Qed.

Lemma logLevels_lookup_Some (k : Z) (name : string) :
  logLevels !! k = Some name -> k ∈ declared_levels.
Proof.
  unfold logLevels, declared_levels. intros H.
  repeat (apply lookup_insert_Some in H as [[<- _] | [_ H]];
          [ set_solver | ]).
  by rewrite lookup_empty in H.
Qed.

Lemma logLevels_lookup_declared (k : Z) :
  k ∈ declared_levels -> is_Some (logLevels !! k).
Proof.
  unfold declared_levels. intros H.
  repeat (apply elem_of_cons in H as [-> | H]; [ by eexists | ]).
  by apply elem_of_nil in H.
Qed.

(** ** The text of a message *)

Lemma logf_format_located (stack : list Frame) (lvl : LogLevel) (f : string)
    (fr : Frame) :
  Caller stack 2 = Some fr ->
  logf_format stack lvl f =
  "upper/db: log_level=" ++ logLevels_at lvl ++ " file=" ++ file fr ++ ":" ++
  itoa (line fr) ++ newline ++ f.
Proof.
  intros H. unfold logf_format. rewrite H.
  rewrite <- (append_nil_r f) at 2. reflexivity.
Qed.

Lemma logf_format_bare (stack : list Frame) (lvl : LogLevel) (f : string) :
  Caller stack 2 = None ->
  logf_format stack lvl f = "upper/db: " ++ logLevels_at lvl ++ newline ++ f.
Proof. intros H. unfold logf_format. by rewrite H. Qed.

Lemma log_format_located (stack : list Frame) (lvl : LogLevel) (fr : Frame) :
  Caller stack 2 = Some fr ->
  log_format stack lvl =
  "upper/db: log_level=" ++ logLevels_at lvl ++ " file=" ++ file fr ++ ":" ++
  itoa (line fr) ++ newline.
Proof. intros H. unfold log_format. rewrite H. reflexivity. Qed.

Lemma log_format_bare (stack : list Frame) (lvl : LogLevel) :
  Caller stack 2 = None ->
  log_format stack lvl = "upper/db: " ++ logLevels_at lvl ++ newline.
Proof. intros H. unfold log_format. by rewrite H. Qed.

Lemma logf_format_tagged (stack : list Frame) (lvl : LogLevel) (f : string) :
  HasPrefix (logf_format stack lvl f) "upper/db: ".
Proof. unfold logf_format. by eexists. Qed.


Lemma logf_format_names_level (stack : list Frame) (lvl : LogLevel)
    (f : string) :
  Contains (logf_format stack lvl f) (logLevels_at lvl).
Proof.
  destruct (Caller stack 2) as [fr |] eqn:H.
  - rewrite (logf_format_located _ _ _ _ H).
    exists "upper/db: log_level=". eexists. reflexivity.
  - rewrite (logf_format_bare _ _ _ H). exists "upper/db: ". eexists.
    reflexivity.
Qed.

Lemma log_format_names_level (stack : list Frame) (lvl : LogLevel) :
  Contains (log_format stack lvl) (logLevels_at lvl).
Proof.
  destruct (Caller stack 2) as [fr |] eqn:H.
  - rewrite (log_format_located _ _ _ H).
    exists "upper/db: log_level=". eexists. reflexivity.
  - rewrite (log_format_bare _ _ H). exists "upper/db: ". eexists.
    reflexivity.
Qed.


Lemma located_text_in (name fr_text rest : string) :
  Contains ("upper/db: log_level=" ++ name ++ " file=" ++ fr_text ++ rest)
           fr_text.
Proof.
  exists ("upper/db: log_level=" ++ name ++ " file="), rest.
  rewrite !append_assoc. reflexivity.
Qed.

Lemma logf_format_names_site (stack : list Frame) (lvl : LogLevel)
    (f : string) (fr : Frame) :
  Caller stack 2 = Some fr ->
  Contains (logf_format stack lvl f) (file fr ++ ":" ++ itoa (line fr)).
Proof.
  intros H. rewrite (logf_format_located _ _ _ _ H).
  pose proof (located_text_in (logLevels_at lvl)
                (file fr ++ ":" ++ itoa (line fr)) (newline ++ f)) as C.
  by rewrite !append_assoc in C.
Qed.

Lemma log_format_names_site (stack : list Frame) (lvl : LogLevel)
    (fr : Frame) :
  Caller stack 2 = Some fr ->
  Contains (log_format stack lvl) (file fr ++ ":" ++ itoa (line fr)).
Proof.
  intros H. rewrite (log_format_located _ _ _ H).
  pose proof (located_text_in (logLevels_at lvl)
                (file fr ++ ":" ++ itoa (line fr)) newline) as C.
  by rewrite !append_assoc in C.
Qed.


Lemma Caller_site (inner wrapper site : Frame) (rest : list Frame) :
  Caller (inner :: wrapper :: site :: rest) 2 = Some site.
Proof. reflexivity. Qed.

(** ** The dispatch *)

Section Dispatch.

Context {W : Type}.
Variable stdLogger : Logger.t W.

Local Abbreviation State := (@State W).
Local Abbreviation Logger := (Logger stdLogger).
Local Abbreviation logf := (logf stdLogger).
Local Abbreviation log := (log stdLogger).
Local Abbreviation backend := (backend stdLogger).

Lemma Logger_resolves (s : State) :
  Logger s = Ok (Some (backend (coll s))) s.
Proof.
  unfold loggingCollector.Logger, loggingCollector.backend.
  by destruct (logger (coll s)).
Qed.

Lemma invoke_coll (b : Logger.t W) (c : Logger.Call) (s : State) :
  coll (final (invoke (Some b) c s)) = coll s.
Proof.
  unfold invoke. destruct (Logger.run b c (world s)) as [w' []]; reflexivity.
Qed.

Lemma invoke_all_coll (b : Logger.t W) (cs : list Logger.Call) :
  forall s : State, coll (final (invoke_all b cs s)) = coll s.
Proof.
  induction cs as [| c rest IH]; intros s; [reflexivity |].
  cbn [invoke_all]. unfold bind.
  pose proof (invoke_coll b c s) as Hc.
  destruct (invoke (Some b) c s) as [[] s' | code s' | pv s']; cbn in *;
    [ rewrite IH | | ]; exact Hc.
Qed.

Lemma invoke_all_calls (b : Logger.t W) (cs : list Logger.Call) :
  forall s : State,
    calls (final (invoke_all b cs s)) =
    (calls s ++ map (event b) (reached b cs (world s)))%list.
Proof.
  induction cs as [| c rest IH]; intros s.
  - cbn. by rewrite app_nil_r.
  - cbn [invoke_all reached]. unfold bind, invoke.
    destruct (Logger.run b c (world s)) as [w' []]; cbn.
    + rewrite IH. cbn. by rewrite <- app_assoc.
    + reflexivity.
    + reflexivity.
Qed.

Lemma invoke_all_emitted (b : Logger.t W) (cs : list Logger.Call)
    (s : State) :
  emitted s (invoke_all b cs s) = map (event b) (reached b cs (world s)).
Proof. unfold emitted. by rewrite invoke_all_calls, drop_app_length. Qed.

(** What a run of invocations does to the world depends on the world it
    starts in only. *)
Lemma invoke_all_world (b : Logger.t W) (cs : list Logger.Call) :
  forall s s' : State,
    world s = world s' ->
    world (final (invoke_all b cs s)) = world (final (invoke_all b cs s')).
Proof.
  induction cs as [| c rest IH]; intros s s' Hw; [exact Hw |].
  cbn [invoke_all]. unfold bind, invoke. rewrite <- Hw.
  destruct (Logger.run b c (world s)) as [w' []]; cbn [final world];
    [by apply IH | reflexivity..].
Qed.

Lemma invoke_all_no_nil_failure (b : Logger.t W) (cs : list Logger.Call) :
  forall s : State, nil_failure (invoke_all b cs s) = false.
Proof.
  induction cs as [| c rest IH]; intros s; [reflexivity |].
  cbn [invoke_all]. unfold bind, invoke.
  destruct (Logger.run b c (world s)) as [w' []]; cbn; [apply IH | done..].
Qed.

Lemma resolve_then_invoke (c : Logger.Call) (s : State) :
  (let* l := Logger in invoke l c) s = invoke (Some (backend (coll s))) c s.
Proof. unfold bind. by rewrite Logger_resolves. Qed.

(** What follows an invocation only ever sees the same collector. *)
Lemma bind_invoke_ext (b : Logger.t W) (c : Logger.Call) (k1 k2 : M unit)
    (s : State) :
  (forall s' : State, coll s' = coll s -> k1 s' = k2 s') ->
  (run* invoke (Some b) c in k1) s = (run* invoke (Some b) c in k2) s.
Proof.
  intros Hk. unfold bind. pose proof (invoke_coll b c s) as Hc.
  destruct (invoke (Some b) c s) as [[] s' | code s' | pv s']; cbn in Hc;
    [ by apply Hk | reflexivity | reflexivity ].
Qed.

Lemma guarded_print (threshold lvl : LogLevel) (rc : Logger.Call)
    (s : State) :
  threshold = level (coll s) ->
  (let* en := Enabled lvl in when en (let* l := Logger in invoke l rc)) s =
  invoke_all (backend (coll s))
    (if lvl >=? threshold then [rc] else []) s.
Proof.
  intros ->. unfold bind at 1, Enabled, when.
  destruct (lvl >=? level (coll s)); [| reflexivity].
  rewrite resolve_then_invoke. cbn [invoke_all]. unfold bind, ret.
  by destruct (invoke _ rc s) as [[] ? | ? ? | ? ?].
Qed.

Lemma guarded_call (cond : bool) (c : Logger.Call) (k1 : M unit)
    (rest : list Logger.Call) (s : State) :
  (forall s' : State, coll s' = coll s ->
     k1 s' = invoke_all (backend (coll s)) rest s') ->
  (run* when cond (let* l := Logger in invoke l c) in k1) s =
  invoke_all (backend (coll s)) ((if cond then [c] else []) ++ rest)%list s.
Proof.
  intros Hk. destruct cond; cbn [when app invoke_all].
  - rewrite <- (bind_invoke_ext _ c k1 _ s Hk).
    unfold bind at 1 3. by rewrite resolve_then_invoke.
  - unfold bind, ret. by apply Hk.
Qed.

(** Both dispatch functions are the cascade run on the resolved backend. *)
Lemma dispatch_is_cascade (lvl : LogLevel) (pc fc rc : Logger.Call)
    (s : State) :
  (run* when (lvl >=? LogLevelPanic) (let* l := Logger in invoke l pc) in
   run* when (lvl >=? LogLevelFatal) (let* l := Logger in invoke l fc) in
   let* en := Enabled lvl in
   when en (let* l := Logger in invoke l rc)) s =
  invoke_all (backend (coll s)) (cascade (level (coll s)) lvl pc fc rc) s.
Proof.
  unfold cascade. apply guarded_call. intros s1 H1. rewrite <- H1.
  apply guarded_call. intros s2 H2. rewrite <- H2.
  apply guarded_print. congruence.
Qed.

Lemma logf_is_cascade (stack : list Frame) (lvl : LogLevel) (f : string)
    (v : list Value) (s : State) :
  logf stack lvl f v s =
  invoke_all (backend (coll s))
    (cascade_f (level (coll s)) lvl (logf_format stack lvl f) v) s.
Proof. apply dispatch_is_cascade. Qed.

Lemma log_is_cascade (stack : list Frame) (lvl : LogLevel)
    (v : list Value) (s : State) :
  log stack lvl v s =
  invoke_all (backend (coll s))
    (cascade_plain (level (coll s)) lvl
       (VString (log_format stack lvl) :: v)) s.
Proof. apply dispatch_is_cascade. Qed.

(** ** Enabled and SetLevel *)

(** C1: [Enabled L] answers true exactly when [L] is at or above the
    threshold the collector holds at that moment and leaves the state as it
    found it; after [SetLevel T] the answer is taken against [T], whether
    or not [Enabled] had been asked before. *)
Theorem Enabled_reads_current_threshold (s : State) (L T : LogLevel) :
  (exists b, Enabled L s = Ok b s /\ (b = true <-> L >= level (coll s))) /\
  (exists b s', (run* SetLevel T in Enabled L) s = Ok b s' /\
                level (coll s') = T /\ (b = true <-> L >= T)) /\
  (let* before := Enabled L in run* SetLevel T in Enabled L) s =
  (run* SetLevel T in Enabled L) s.
Proof.
  split; [| split].
  - exists (L >=? level (coll s)). split; [reflexivity |].
    rewrite Z.geb_le. lia.
  - eexists. eexists. split; [reflexivity |]. cbn.
    split; [reflexivity |]. rewrite Z.geb_le. lia.
  - reflexivity.
Qed.

(** ** The cascade *)

Lemma logf_emits_reached (stack : list Frame) (lvl : LogLevel) (f : string)
    (v : list Value) (s : State) :
  emitted s (logf stack lvl f v s) =
  map (event (backend (coll s)))
    (reached (backend (coll s))
       (cascade_f (level (coll s)) lvl (logf_format stack lvl f) v)
       (world s)).
Proof. by rewrite logf_is_cascade, invoke_all_emitted. Qed.

Lemma log_emits_reached (stack : list Frame) (lvl : LogLevel)
    (v : list Value) (s : State) :
  emitted s (log stack lvl v s) =
  map (event (backend (coll s)))
    (reached (backend (coll s))
       (cascade_plain (level (coll s)) lvl
          (VString (log_format stack lvl) :: v))
       (world s)).
Proof. by rewrite log_is_cascade, invoke_all_emitted. Qed.

(** Case analysis on the three checks and on how each reached backend
    operation ends. *)
Ltac cascade_cases :=
  unfold cascade_f, cascade_plain, cascade;
  repeat match goal with
  | |- context [if ?c then _ else _] => destruct c eqn:?
  end;
  cbn [app reached map];
  repeat match goal with
  | |- context [Logger.run ?b ?c ?w] =>
      let o := fresh "o" in
      destruct (Logger.run b c w) as [? o] eqn:?; destruct o
  end;
  cbn [app reached map].



(** ** The threshold and the print path *)



(** ** Resolving the backend *)

Lemma dispatch_no_nil_failure (stack : list Frame) (lvl : LogLevel)
    (f : string) (v : list Value) (s : State) :
  nil_failure (logf stack lvl f v s) = false /\
  nil_failure (log stack lvl v s) = false.
Proof.
  rewrite logf_is_cascade, log_is_cascade.
  split; apply invoke_all_no_nil_failure.
Qed.

(** C7: the backend is looked up anew by every emit.  With an explicit
    backend set, the invocations of a call go to that backend; once the
    field is set back to nil they go to the default backend again, exactly
    as if the default had been set explicitly; and no call, whatever the
    field holds, ends in the runtime failure of a call through nil. *)
Theorem absent_backend_falls_back_to_default (s : State)
    (explicit : Logger.t W) (stack : list Frame) (lvl : LogLevel)
    (f : string) (v : list Value) :
  let s1 := final (SetLogger (Some explicit) s) in
  let s2 := final ((run* SetLogger (Some explicit) in SetLogger None) s) in
  let s3 := final (SetLogger (Some stdLogger) s) in
  let calls_f := cascade_f (level (coll s)) lvl (logf_format stack lvl f) v in
  let calls_p := cascade_plain (level (coll s)) lvl
                   (VString (log_format stack lvl) :: v) in
  (Logger s1 = Ok (Some explicit) s1 /\
   emitted s1 (logf stack lvl f v s1) =
     map (event explicit) (reached explicit calls_f (world s)) /\
   emitted s1 (log stack lvl v s1) =
     map (event explicit) (reached explicit calls_p (world s))) /\
  (logger (coll s2) = None /\
   Logger s2 = Ok (Some stdLogger) s2 /\
   emitted s2 (logf stack lvl f v s2) =
     map (event stdLogger) (reached stdLogger calls_f (world s)) /\
   emitted s2 (log stack lvl v s2) =
     map (event stdLogger) (reached stdLogger calls_p (world s))) /\
  (emitted s2 (logf stack lvl f v s2) = emitted s3 (logf stack lvl f v s3) /\
   emitted s2 (log stack lvl v s2) = emitted s3 (log stack lvl v s3) /\
   world (final (logf stack lvl f v s2)) =
     world (final (logf stack lvl f v s3)) /\
   world (final (log stack lvl v s2)) =
     world (final (log stack lvl v s3))) /\
  (nil_failure (logf stack lvl f v s2) = false /\
   nil_failure (log stack lvl v s2) = false /\
   nil_failure (logf stack lvl f v s) = false /\
   nil_failure (log stack lvl v s) = false).
Proof.
  cbv zeta. unfold SetLogger, bind. cbn [final].
  rewrite !logf_emits_reached, !log_emits_reached.
  rewrite !logf_is_cascade, !log_is_cascade.
  cbn [coll level logger world loggingCollector.backend default from_option
       id].
  repeat split; try apply invoke_all_no_nil_failure;
    by apply invoke_all_world.
Qed.

(** ** The header *)


Lemma reached_Forall (P : Logger.Call -> Prop) (b : Logger.t W)
    (cs : list Logger.Call) :
  Forall P cs -> forall w, Forall P (reached b cs w).
Proof.
  induction 1 as [| c rest Hc Hrest IH]; intros w; cbn [reached];
    [constructor |].
  constructor; [exact Hc |].
  destruct (Logger.run b c w) as [w' []]; [apply IH | constructor..].
Qed.

Lemma cascade_Forall (P : Logger.Call -> Prop) (threshold lvl : LogLevel)
    (pc fc rc : Logger.Call) :
  P pc -> P fc -> P rc -> Forall P (cascade threshold lvl pc fc rc).
Proof.
  intros. unfold cascade.
  destruct (lvl >=? LogLevelPanic); destruct (lvl >=? LogLevelFatal);
    destruct (lvl >=? threshold); repeat constructor; assumption.
Qed.

(** Every invocation of a dispatch whose frame 2 is [site] leads with a
    text that names the file and line of [site]. *)
Lemma located_dispatch_names_site (inner wrapper site : Frame)
    (rest : list Frame) (lvl : LogLevel) (f : string) (v : list Value)
    (s : State) :
  let located := inner :: wrapper :: site :: rest in
  let names_site (e : Event) :=
    Contains (Logger.head_text (call e))
             (file site ++ ":" ++ itoa (line site)) in
  Forall names_site (emitted s (logf located lvl f v s)) /\
  Forall names_site (emitted s (log located lvl v s)).
Proof.
  intros located names_site.
  rewrite logf_emits_reached, log_emits_reached.
  pose proof (logf_format_names_site located lvl f site eq_refl) as Hf.
  pose proof (log_format_names_site located lvl site eq_refl) as Hp.
  split; apply Forall_map; apply reached_Forall; apply cascade_Forall;
    unfold names_site; cbn [call event Logger.head_text]; assumption.
Qed.

(** X9: The frame a wrapper's dispatch reports is the frame of its caller. *)
Lemma wrappers_report_their_caller (site : Frame) (rest : list Frame)
    (f : string) (v : list Value) (s : State) :
  let names_site (e : Event) :=
    Contains (Logger.head_text (call e))
             (file site ++ ":" ++ itoa (line site)) in
  let stack := site :: rest in
  Forall (Forall names_site)
    [emitted s (Tracef stdLogger stack f v s);
     emitted s (Trace stdLogger stack v s);
     emitted s (Debugf stdLogger stack f v s);
     emitted s (Debug stdLogger stack v s);
     emitted s (Infof stdLogger stack f v s);
     emitted s (Info stdLogger stack v s);
     emitted s (Warnf stdLogger stack f v s);
     emitted s (Warn stdLogger stack v s);
     emitted s (Errorf stdLogger stack f v s);
     emitted s (Error stdLogger stack v s);
     emitted s (Fatalf stdLogger stack f v s);
     emitted s (Fatal stdLogger stack v s);
     emitted s (Panicf stdLogger stack f v s);
     emitted s (Panic stdLogger stack v s)].
Proof.
  intros names_site stack.
  repeat constructor;
    apply (located_dispatch_names_site _ _ site rest _ f v s).
Qed.

(** ** Trace and Tracef *)

(** C3: the plain [Trace] dispatches at Debug, the formatted [Tracef] at
    Trace.  [Trace] does what [Debug] does: it prints exactly when Debug is
    at or above the threshold, under the label DEBUG; [Tracef] prints
    exactly when Trace is at or above the threshold, under the label
    TRACE.  With the threshold at Debug the first prints and the second
    does not. *)
Theorem Trace_dispatches_at_Debug_Tracef_at_Trace (s : State)
    (stack : list Frame) (f : string) (v : list Value) :
  let b := backend (coll s) in
  let plain_text :=
    log_format (logger_go 149 :: logger_go 177 :: stack) LogLevelDebug in
  let formatted_text :=
    logf_format (logger_go 131 :: logger_go 174 :: stack) LogLevelTrace f in
  let at_debug := final (SetLevel LogLevelDebug s) in
  Trace stdLogger stack v s = Debug stdLogger stack v s /\
  emitted s (Trace stdLogger stack v s) =
    (if LogLevelDebug >=? level (coll s)
     then [event b (Logger.CPrint (VString plain_text :: v))] else []) /\
  Contains plain_text "DEBUG" /\
  emitted s (Tracef stdLogger stack f v s) =
    (if LogLevelTrace >=? level (coll s)
     then [event b (Logger.CPrintf formatted_text v)] else []) /\
  Contains formatted_text "TRACE" /\
  length (emitted at_debug (Trace stdLogger stack v at_debug)) = 1%nat /\
  emitted at_debug (Tracef stdLogger stack f v at_debug) = [].
Proof.
  cbv zeta. unfold SetLevel. cbn [final]. unfold Trace, Debug, Tracef.
  rewrite !logf_emits_reached, !log_emits_reached.
  cbn [coll level logger world].
  unfold cascade_f, cascade_plain, cascade.
  change (LogLevelDebug >=? LogLevelPanic) with false.
  change (LogLevelDebug >=? LogLevelFatal) with false.
  change (LogLevelTrace >=? LogLevelPanic) with false.
  change (LogLevelTrace >=? LogLevelFatal) with false.
  change (LogLevelDebug >=? LogLevelDebug) with true.
  change (LogLevelTrace >=? LogLevelDebug) with false.
  split; [reflexivity |].
  split; [cascade_cases; reflexivity |].
  split; [apply (log_format_names_level _ LogLevelDebug) |].
  split; [cascade_cases; reflexivity |].
  split; [apply (logf_format_names_level _ LogLevelTrace) |].
  split; cascade_cases; reflexivity.
Qed.

End Dispatch.

(** ** The level constants *)

(** C4, as the code has it: the seven levels ascend strictly in the order
    Trace, Debug, Info, Warn, Error, Fatal, Panic, with the values -1, 1, 2,
    3, 4, 5, 6.  Trace is below Debug; Debug is 1, so that the zero value of
    the level type lies strictly between Trace and Debug and has no name.
    Under the default threshold, Warn, neither Trace nor Debug is enabled. *)
Theorem levels_ascend_Debug_is_one {W : Type} (l : option (Logger.t W))
    (w : W) (evs : list (@Event W)) :
  let s := {| coll := {| level := defaultLogLevel; logger := l |};
              world := w; calls := evs |} in
  declared_levels = [-1; 1; 2; 3; 4; 5; 6] /\
  StronglySorted Z.lt declared_levels /\
  LogLevelTrace < LogLevelDebug /\
  LogLevelDebug = 1 /\
  LogLevelTrace < 0 < LogLevelDebug /\
  logLevels !! 0 = None /\
  defaultLogLevel = LogLevelWarn /\
  Enabled LogLevelTrace s = Ok false s /\
  Enabled LogLevelDebug s = Ok false s.
Proof.
  cbv zeta. repeat split.
  repeat (constructor; [| repeat constructor; reflexivity]). constructor.
Qed.

(** The zero value of [LogLevel] is not [LogLevelDebug]. *)
Lemma Debug_is_not_the_zero_level :
  ~ (StronglySorted Z.lt declared_levels /\ LogLevelTrace < LogLevelDebug /\
     LogLevelDebug = 0).
Proof. intros (_ & _ & H). discriminate H. Qed.

(** ** Package initialization *)

Lemma level_named_table :
  map level_named
    ["TRACE"; "DEBUG"; "INFO"; "WARNING"; "ERROR"; "FATAL"; "PANIC"] =
  map Some declared_levels.
Proof. reflexivity. Qed.

(** [level_named] reads the table [logLevels] backwards. *)
Lemma level_named_inverts_logLevels (name : string) (k : LogLevel) :
  level_named name = Some k <-> logLevels !! k = Some name.
Proof.
  split.
  - unfold level_named, level_names. cbn [List.find fst snd].
    repeat match goal with
    | |- context [String.eqb ?a name] =>
        destruct (String.eqb_spec a name) as [<- | ?];
        [ intros [= <-]; reflexivity | ]
    end.
    discriminate.
  - unfold logLevels. intros H.
    repeat (apply lookup_insert_Some in H as [[<- <-] | [_ H]];
            [ reflexivity | ]).
    by rewrite lookup_empty in H.
Qed.

Lemma logLevels_at_lookup (k : LogLevel) (name : string) :
  logLevels !! k = Some name -> logLevels_at k = name.
Proof. unfold logLevels_at. by intros ->. Qed.

Lemma range_order_keys (order : list LogLevel) (k : LogLevel) :
  order ≡ₚ (map_to_list logLevels).*1 ->
  In k order <-> is_Some (logLevels !! k).
Proof.
  intros Hp. rewrite <- list_elem_of_In, Hp, list_elem_of_fmap. split.
  - intros ([k' name] & -> & H). apply elem_of_map_to_list in H. by exists name.
  - intros [name H]. exists (k, name). split; [reflexivity |].
    by apply elem_of_map_to_list.
Qed.

(** Whatever the order of the visit, the key found is the level the name
    stands for. *)
Lemma find_in_range (order : list LogLevel) (name : string) :
  order ≡ₚ (map_to_list logLevels).*1 ->
  List.find (fun k => String.eqb (logLevels_at k) name) order =
  level_named name.
Proof.
  intros Hp.
  destruct (List.find _ order) as [k |] eqn:Hfind.
  - apply find_some in Hfind as [Hin Heq].
    apply String.eqb_eq in Heq.
    apply (range_order_keys _ _ Hp) in Hin as [name' Hk].
    rewrite (logLevels_at_lookup _ _ Hk) in Heq. subst name'.
    symmetry. by apply level_named_inverts_logLevels.
  - destruct (level_named name) as [k |] eqn:Hnamed; [| reflexivity].
    apply level_named_inverts_logLevels in Hnamed.
    assert (In k order) as Hin by (apply (range_order_keys _ _ Hp); by eexists).
    pose proof (find_none _ _ Hfind k Hin) as Hneq. cbn in Hneq.
    rewrite (logLevels_at_lookup _ _ Hnamed), String.eqb_refl in Hneq.
    discriminate.
Qed.

Lemma init_range_finds {W : Type} (order : list LogLevel) (name : string)
    (s : @State W) :
  init_range order name s =
  match List.find (fun k => String.eqb (logLevels_at k) name) order with
  | Some k => SetLevel k s
  | None => Ok tt s
  end.
Proof.
  induction order as [| k rest IH]; [reflexivity |].
  cbn [init_range List.find].
  by destruct (String.eqb (logLevels_at k) name).
Qed.

(** C6: in whatever order the runtime visits the keys of [logLevels], [init]
    returns with the threshold set to the level whose display name is the
    value of [UPPER_DB_LOG], and with the default, Warn, when the variable is
    unset or empty or names no level; the display names are those of the
    table, TRACE for Trace through PANIC for Panic, and nothing else of the
    collector changes. *)
Theorem init_sets_threshold_from_environment {W : Type}
    (stdLogger : Logger.t W) (env : gmap string string)
    (order : list LogLevel) (w : W) :
  order ≡ₚ (map_to_list logLevels).*1 ->
  init env order (startup stdLogger w) =
    Ok tt {| coll :=
               {| level := default LogLevelWarn
                             (level_named (Getenv env "UPPER_DB_LOG"));
                  logger := defaultLogger stdLogger |};
             world := w; calls := [] |} /\
  map level_named
    ["TRACE"; "DEBUG"; "INFO"; "WARNING"; "ERROR"; "FATAL"; "PANIC"; ""] =
  [Some LogLevelTrace; Some LogLevelDebug; Some LogLevelInfo;
   Some LogLevelWarn; Some LogLevelError; Some LogLevelFatal;
   Some LogLevelPanic; None] /\
  (forall name k, level_named name = Some k <-> logLevels !! k = Some name) /\
  Getenv ∅ "UPPER_DB_LOG" = "".
Proof.
  intros Hp.
  split; [| split; [reflexivity | split;
    [apply level_named_inverts_logLevels | reflexivity]]].
  unfold init.
  destruct (String.eqb_spec (Getenv env "UPPER_DB_LOG") "") as [-> | Hne].
  - reflexivity.
  - cbn [negb]. rewrite init_range_finds, (find_in_range _ _ Hp).
    by destruct (level_named _).
Qed.

(** ** Concrete runs *)

Lemma recorder_returns (name : string) :
  Logger.PanicFatalReturn (Doubles.recorder name).
Proof. intros c w H. destruct c; first [reflexivity | by destruct H]. Qed.

Example Panic_on_mock_cascades :
  map call
    (calls (final (Panic Doubles.std [Doubles.main_go 10] [VString "boom"]
                     (Doubles.state_with LogLevelWarn (Some Doubles.mock))))) =
  let header :=
    VString ("upper/db: log_level=PANIC file=main.go:10" ++ newline) in
  [Logger.CPanic [header; VString "boom"];
   Logger.CFatal [header; VString "boom"];
   Logger.CPrint [header; VString "boom"]].
Proof. reflexivity. Qed.

Example Warnf_without_caller_information :
  map call
    (calls (final (Warnf Doubles.std [] "slow query: %d ms" [VInt 250]
                     (Doubles.state_with LogLevelWarn None)))) =
  [Logger.CPrintf ("upper/db: WARNING" ++ newline ++ "slow query: %d ms")
     [VInt 250]].
Proof. reflexivity. Qed.

Example Info_below_default_threshold :
  Info Doubles.std [Doubles.main_go 3] [VString "started"]
    (Doubles.state_with defaultLogLevel None) =
  Ok tt (Doubles.state_with defaultLogLevel None).
Proof. reflexivity. Qed.





(** With [UPPER_DB_LOG=ERROR] the threshold after [init] is Error; with a
    value that names no level it is Warn. *)
Lemma init_with_ERROR :
  (map_to_list logLevels).*1 ≡ₚ (map_to_list logLevels).*1 /\
  level (coll (final (init {["UPPER_DB_LOG" := "ERROR"]}
                        (map_to_list logLevels).*1
                        (startup Doubles.std [])))) = LogLevelError /\
  level (coll (final (init {["UPPER_DB_LOG" := "error"]}
                        (map_to_list logLevels).*1
                        (startup Doubles.std [])))) = LogLevelWarn.
Proof.
  split; [reflexivity |].
  rewrite (proj1 (init_sets_threshold_from_environment Doubles.std
                    {["UPPER_DB_LOG" := "ERROR"]} _ []
                    (reflexivity _))).
  rewrite (proj1 (init_sets_threshold_from_environment Doubles.std
                    {["UPPER_DB_LOG" := "error"]} _ []
                    (reflexivity _))).
  split; reflexivity.
Defined.


(** * Further properties of logger.go *)

(** ** Display names *)

Lemma logLevels_at_cases (k : LogLevel) :
  logLevels_at k ∈
    ["TRACE"; "DEBUG"; "INFO"; "WARNING"; "ERROR"; "FATAL"; "PANIC"; ""].
Proof.
  unfold logLevels_at. destruct (logLevels !! k) as [name |] eqn:H.
  - unfold logLevels in H.
    repeat (apply lookup_insert_Some in H as [[_ <-] | [_ H]];
            [ cbn [default from_option id]; set_solver | ]).
    by rewrite lookup_empty in H.
  - cbn. set_solver.
Qed.

(** X11: The table gives each of its seven keys a name of its own, none of them
    empty, and the empty name to every other level; so a display name, when
    it is not empty, tells the level. *)
Theorem display_names_identify_levels (k1 k2 : LogLevel) :
  logLevels_at k1 = logLevels_at k2 -> logLevels_at k1 <> "" -> k1 = k2.
Proof.
  unfold logLevels_at. intros Heq Hne.
  destruct (logLevels !! k1) as [n1 |] eqn:H1; [| done].
  destruct (logLevels !! k2) as [n2 |] eqn:H2; cbn in Heq, Hne;
    [| congruence].
  subst n2.
  apply level_named_inverts_logLevels in H1, H2. congruence.
Qed.

Lemma display_names_identify_levels_witness :
  logLevels_at LogLevelError = logLevels_at 4 /\
  logLevels_at LogLevelError <> "" /\ LogLevelError = 4.
Proof.
  split; [reflexivity |]. split; [discriminate |].
  apply (display_names_identify_levels LogLevelError 4);
    [reflexivity | discriminate].
Defined.

(** ** Percent signs in the header *)

Lemma no_percent_app (a b : string) :
  no_percent (a ++ b) = no_percent a && no_percent b.
Proof.
  induction a as [| c a IH]; [reflexivity |].
  change (no_percent (String c (a ++ b)) =
          no_percent (String c a) && no_percent b).
  cbn [no_percent]. by rewrite IH, andb_assoc.
Qed.

Lemma no_percent_digits (d : Decimal.uint) :
  no_percent (NilEmpty.string_of_uint d) = true.
Proof. induction d; cbn; auto. Qed.

Lemma no_percent_itoa (z : Z) : no_percent (itoa z) = true.
Proof.
  unfold itoa, NilZero.string_of_int, NilZero.string_of_uint.
  destruct (Z.to_int z) as [d | d]; destruct d;
    first [reflexivity | apply no_percent_digits
          | cbn [no_percent]; apply no_percent_digits ].
Qed.

Lemma no_percent_display_name (k : LogLevel) :
  no_percent (logLevels_at k) = true.
Proof.
  pose proof (logLevels_at_cases k) as H.
  repeat (apply elem_of_cons in H as [-> | H]; [reflexivity |]).
  by apply elem_of_nil in H.
Qed.

(** X10: The formatted path puts before the caller's format string exactly the
    header that the plain path passes as its first operand, and that header
    has a percent sign in it only if the file name reported by the runtime
    has one: without a reported frame, or with a file name free of percent
    signs, the header adds no formatting verb to the format string. *)
Theorem header_percent_only_from_file (stack : list Frame) (lvl : LogLevel)
    (f : string) :
  logf_format stack lvl f = log_format stack lvl ++ f /\
  no_percent (log_format stack lvl) =
    match Caller stack 2 with
    | Some fr => no_percent (file fr)
    | None => true
    end.
Proof.
  destruct (Caller stack 2) as [fr |] eqn:H.
  - rewrite (logf_format_located _ _ _ _ H), (log_format_located _ _ _ H).
    split.
    + change ("upper/db: log_level=" ++ ?x) with
        ("upper/db: " ++ "log_level=" ++ x).
      by rewrite !append_assoc.
    + change ("upper/db: log_level=" ++ ?x) with
        ("upper/db: " ++ "log_level=" ++ x).
      rewrite !no_percent_app, no_percent_display_name, no_percent_itoa.
      cbn. by rewrite !andb_true_r.
  - rewrite (logf_format_bare _ _ _ H), (log_format_bare _ _ H).
    split; [by rewrite !append_assoc |].
    by rewrite !no_percent_app, no_percent_display_name.
Qed.

(** ** Enabled, SetLevel, SetLogger, Level *)

(** X12: What is enabled stays enabled at every level above it and under every
    threshold below the current one. *)
Theorem Enabled_upward_closed {W : Type} (s : @State W)
    (L L' T' : LogLevel) :
  L <= L' -> T' <= level (coll s) ->
  Enabled L s = Ok true s ->
  Enabled L' s = Ok true s /\
  (run* SetLevel T' in Enabled L') s = Ok true (final (SetLevel T' s)).
Proof.
  unfold Enabled, SetLevel, bind. cbn [final coll level].
  intros HL HT [= H]. apply Z.geb_le in H.
  rewrite !geb_true by lia. done.
Qed.

Lemma Enabled_upward_closed_witness :
  Enabled LogLevelFatal (Doubles.state_with LogLevelWarn None) =
  Ok true (Doubles.state_with LogLevelWarn None).
Proof.
  apply (Enabled_upward_closed (Doubles.state_with LogLevelWarn None)
           LogLevelWarn LogLevelFatal LogLevelDebug);
    [ discriminate | discriminate | reflexivity ].
Defined.

(** X13: The setters compose as plain field writes: of two writes to the same
    field the later one stands, writes to the two fields commute, and [Level]
    and [Logger] read back what was last written, the default backend for a
    nil logger. *)
Theorem setters_compose {W : Type} (stdLogger : Logger.t W) (s : @State W)
    (T1 T2 : LogLevel) (l1 l2 : option (Logger.t W)) :
  (run* SetLevel T1 in SetLevel T2) s = SetLevel T2 s /\
  (run* SetLogger l1 in SetLogger l2) s = SetLogger l2 s /\
  (run* SetLevel T1 in SetLogger l1) s =
    (run* SetLogger l1 in SetLevel T1) s /\
  (run* SetLogger l1 in run* SetLevel T1 in Level) s =
    Ok T1 {| coll := {| level := T1; logger := l1 |};
             world := world s; calls := calls s |} /\
  (run* SetLevel T1 in run* SetLogger l1 in Logger stdLogger) s =
    Ok (Some (default stdLogger l1))
       {| coll := {| level := T1; logger := l1 |};
          world := world s; calls := calls s |}.
Proof.
  repeat split. unfold bind, SetLevel, SetLogger, Logger. cbn.
  by destruct l1.
Qed.

(** ** How a call ends *)

Section Calls.

Context {W : Type}.
Variable stdLogger : Logger.t W.

Local Abbreviation State := (@State W).
Local Abbreviation logf := (logf stdLogger).
Local Abbreviation log := (log stdLogger).
Local Abbreviation backend := (backend stdLogger).

Lemma invoke_all_one (b : Logger.t W) (c : Logger.Call) (s : State) :
  invoke_all b [c] s = invoke (Some b) c s.
Proof.
  cbn [invoke_all]. unfold bind, ret.
  by destruct (invoke (Some b) c s) as [[] ? | ? ? | ? ?].
Qed.

Lemma invoke_all_stops (b : Logger.t W) (c : Logger.Call)
    (rest : list Logger.Call) (s : State) :
  returns (snd (Logger.run b c (world s))) = false ->
  invoke_all b (c :: rest) s = invoke (Some b) c s.
Proof.
  intros H. cbn [invoke_all]. unfold bind, invoke.
  destruct (Logger.run b c (world s)) as [w' []]; [discriminate H | done..].
Qed.

(** X2: A call below Fatal is at most one backend operation: when its level is
    below the threshold it returns at once, with the world and the collector
    as they were and no backend operation invoked; when its level is at or
    above the threshold it is the print operation of the resolved backend,
    and ends as that operation ends. *)
Theorem call_below_Fatal_is_print_or_nothing (s : State)
    (stack : list Frame) (L : LogLevel) (f : string) (v : list Value) :
  L < LogLevelFatal ->
  logf stack L f v s =
    (if L >=? level (coll s)
     then invoke (Some (backend (coll s)))
            (Logger.CPrintf (logf_format stack L f) v) s
     else Ok tt s) /\
  log stack L v s =
    (if L >=? level (coll s)
     then invoke (Some (backend (coll s)))
            (Logger.CPrint (VString (log_format stack L) :: v)) s
     else Ok tt s).
Proof.
  intros H.
  assert ((L >=? LogLevelPanic) = false) as E1
    by (apply geb_false; unfold LogLevelPanic, LogLevelFatal, iota in *; lia).
  assert ((L >=? LogLevelFatal) = false) as E2 by (by apply geb_false).
  rewrite logf_is_cascade, log_is_cascade.
  unfold cascade_f, cascade_plain, cascade. rewrite E1, E2.
  destruct (L >=? level (coll s)); cbn [app];
    [ by rewrite !invoke_all_one | done ].
Qed.

Lemma emitted_one_invocation (b : Logger.t W) (c : Logger.Call) (s : State) :
  map call (emitted s (invoke (Some b) c s)) = [c].
Proof.
  unfold invoke, emitted.
  destruct (Logger.run b c (world s)) as [w' []]; cbn [final calls];
    by rewrite drop_app_length.
Qed.

Lemma invoke_stops (b : Logger.t W) (c : Logger.Call) (s : State) :
  returns (snd (Logger.run b c (world s))) = false ->
  returned (invoke (Some b) c s) = false.
Proof.
  unfold invoke. by destruct (Logger.run b c (world s)) as [w' []].
Qed.

(** X3: A call at Panic or above whose panic operation does not return is that
    one operation: the call ends as the operation ends, by exit or by panic
    with the operation's value, and neither the fatal nor the print
    operation is invoked.  This holds of the formatted call when [Panicf]
    does not return and of the plain call when [Panic] does not return,
    each whatever the other operation does. *)
Theorem call_ends_with_panic_operation (s : State) (stack : list Frame)
    (L : LogLevel) (f : string) (v : list Value) :
  let b := backend (coll s) in
  let pcf := Logger.CPanicf (logf_format stack L f) v in
  let pc := Logger.CPanic (VString (log_format stack L) :: v) in
  LogLevelPanic <= L ->
  (returns (snd (Logger.run b pcf (world s))) = false ->
   logf stack L f v s = invoke (Some b) pcf s /\
   returned (logf stack L f v s) = false /\
   map call (emitted s (logf stack L f v s)) = [pcf]) /\
  (returns (snd (Logger.run b pc (world s))) = false ->
   log stack L v s = invoke (Some b) pc s /\
   returned (log stack L v s) = false /\
   map call (emitted s (log stack L v s)) = [pc]).
Proof.
  intros b pcf pc HL. split; intros Hstop.
  - assert (E : logf stack L f v s = invoke (Some b) pcf s).
    { rewrite logf_is_cascade. unfold cascade_f, cascade.
      rewrite (geb_true _ _ HL). cbn [app]. by apply invoke_all_stops. }
    rewrite E. split; [reflexivity |].
    split; [by apply invoke_stops | apply emitted_one_invocation].
  - assert (E : log stack L v s = invoke (Some b) pc s).
    { rewrite log_is_cascade. unfold cascade_plain, cascade.
      rewrite (geb_true _ _ HL). cbn [app]. by apply invoke_all_stops. }
    rewrite E. split; [reflexivity |].
    split; [by apply invoke_stops | apply emitted_one_invocation].
Qed.

(** X4: A call at Fatal, below Panic, whose fatal operation does not return is
    that one operation: no panic operation is invoked before it and no print
    operation after it, whatever the threshold.  This holds of the formatted
    call when [Fatalf] does not return and of the plain call when [Fatal]
    does not return, each whatever the other operation does. *)
Theorem call_ends_with_fatal_operation (s : State) (stack : list Frame)
    (L : LogLevel) (f : string) (v : list Value) :
  let b := backend (coll s) in
  let fcf := Logger.CFatalf (logf_format stack L f) v in
  let fc := Logger.CFatal (VString (log_format stack L) :: v) in
  LogLevelFatal <= L < LogLevelPanic ->
  (returns (snd (Logger.run b fcf (world s))) = false ->
   logf stack L f v s = invoke (Some b) fcf s /\
   returned (logf stack L f v s) = false /\
   map call (emitted s (logf stack L f v s)) = [fcf]) /\
  (returns (snd (Logger.run b fc (world s))) = false ->
   log stack L v s = invoke (Some b) fc s /\
   returned (log stack L v s) = false /\
   map call (emitted s (log stack L v s)) = [fc]).
Proof.
  intros b fcf fc [HL1 HL2]. split; intros Hstop.
  - assert (E : logf stack L f v s = invoke (Some b) fcf s).
    { rewrite logf_is_cascade. unfold cascade_f, cascade.
      rewrite (geb_true _ _ HL1), (geb_false _ _ HL2). cbn [app].
      by apply invoke_all_stops. }
    rewrite E. split; [reflexivity |].
    split; [by apply invoke_stops | apply emitted_one_invocation].
  - assert (E : log stack L v s = invoke (Some b) fc s).
    { rewrite log_is_cascade. unfold cascade_plain, cascade.
      rewrite (geb_true _ _ HL1), (geb_false _ _ HL2). cbn [app].
      by apply invoke_all_stops. }
    rewrite E. split; [reflexivity |].
    split; [by apply invoke_stops | apply emitted_one_invocation].
Qed.

End Calls.

(** ** The invocations of one call *)

Section Invocations.

Context {W : Type}.
Variable stdLogger : Logger.t W.

Local Abbreviation State := (@State W).
Local Abbreviation logf := (logf stdLogger).
Local Abbreviation log := (log stdLogger).
Local Abbreviation backend := (backend stdLogger).

Ltac by_cascade_cases :=
  unfold cascade_f, cascade_plain, cascade;
  repeat match goal with
  | |- context [if ?c then _ else _] => destruct c eqn:?
  end;
  cbn [app reached map];
  repeat match goal with
  | |- context [Logger.run ?b ?c ?w] =>
      let o := fresh "o" in
      destruct (Logger.run b c w) as [? o] eqn:?; destruct o
  end;
  cbn [app reached map].



Lemma enabled_below_Fatal_prints_once (s : State) (stack : list Frame)
    (L : LogLevel) (f : string) (v : list Value) :
  L < LogLevelFatal -> level (coll s) <= L ->
  map (fun e => Logger.kind (call e)) (emitted s (logf stack L f v s)) =
    [Logger.KPrint] /\
  map (fun e => Logger.kind (call e)) (emitted s (log stack L v s)) =
    [Logger.KPrint].
Proof.
  intros HL HT.
  assert ((L >=? LogLevelPanic) = false) as E1
    by (apply geb_false; unfold LogLevelPanic, LogLevelFatal, iota in *; lia).
  assert ((L >=? LogLevelFatal) = false) as E2 by (by apply geb_false).
  rewrite logf_emits_reached, log_emits_reached.
  unfold cascade_f, cascade_plain, cascade.
  rewrite E1, E2, (geb_true _ _ HT).
  split; by_cascade_cases; reflexivity.
Qed.

(** X7: With the threshold at Trace or below, each wrapper for a level below
    Fatal makes exactly one invocation, a print, on any backend. *)
Theorem threshold_at_Trace_prints_every_wrapper_below_Fatal (s : State)
    (stack : list Frame) (f : string) (v : list Value) :
  level (coll s) <= LogLevelTrace ->
  Forall (fun evs => map (fun e => Logger.kind (call e)) evs = [Logger.KPrint])
    [emitted s (Tracef stdLogger stack f v s);
     emitted s (Trace stdLogger stack v s);
     emitted s (Debugf stdLogger stack f v s);
     emitted s (Debug stdLogger stack v s);
     emitted s (Infof stdLogger stack f v s);
     emitted s (Info stdLogger stack v s);
     emitted s (Warnf stdLogger stack f v s);
     emitted s (Warn stdLogger stack v s);
     emitted s (Errorf stdLogger stack f v s);
     emitted s (Error stdLogger stack v s)].
Proof.
  intros H.
  assert (Hq : forall L, LogLevelTrace <= L -> level (coll s) <= L)
    by (intros; lia).
  unfold Tracef, Trace, Debugf, Debug, Infof, Info, Warnf, Warn, Errorf,
    Error.
  repeat (apply List.Forall_cons;
          [ first
              [ refine (proj1 (enabled_below_Fatal_prints_once s _ _ _ _ _ _))
              | refine (proj2 (enabled_below_Fatal_prints_once s _ _ "" _ _ _)) ];
            [ reflexivity | apply Hq; discriminate ] |]).
  apply List.Forall_nil.
Qed.


End Invocations.

(** * Properties of the benchmark fixtures *)

(** ** Row names *)

Lemma itoa_inj (a b : Z) : itoa a = itoa b -> a = b.
Proof.
  unfold itoa. intros H.
  assert (Hnn : forall z, Z.to_int z <> Decimal.Pos Decimal.Nil /\
                          Z.to_int z <> Decimal.Neg Decimal.Nil).
  { intros [| p | p]; cbn; split; try discriminate;
      intros [= E]; by apply (DecimalPos.Unsigned.to_uint_nonnil p). }
  apply (f_equal NilZero.int_of_string) in H.
  rewrite !NilZero.isi in H by apply Hnn.
  injection H as H. apply (f_equal Z.of_int) in H.
  by rewrite !DecimalZ.of_to in H.
Qed.

Lemma artistN_text (i : Z) :
  Benchmark.artistN i = "Artist " ++ itoa (Z.rem i Benchmark.testRows).
Proof.
  unfold Benchmark.artistN.
  rewrite <- (append_nil_r (itoa _)). reflexivity.
Qed.

Lemma updatedArtistN_text (i : Z) :
  Benchmark.updatedArtistN i =
  "Updated Artist " ++ itoa (Z.rem i Benchmark.testRows).
Proof.
  unfold Benchmark.updatedArtistN.
  rewrite <- (append_nil_r (itoa _)). reflexivity.
Qed.

(** X14: Two indices give the same row name exactly when they leave the same
    remainder on division by [testRows], for [artistN] and for
    [updatedArtistN] alike, and no name of the one kind is a name of the
    other: an update never gives a row the name of a row to be looked up. *)
Theorem row_names_by_remainder (i j : Z) :
  (Benchmark.artistN i = Benchmark.artistN j <->
   Z.rem i Benchmark.testRows = Z.rem j Benchmark.testRows) /\
  (Benchmark.updatedArtistN i = Benchmark.updatedArtistN j <->
   Z.rem i Benchmark.testRows = Z.rem j Benchmark.testRows) /\
  Benchmark.updatedArtistN i <> Benchmark.artistN j.
Proof.
  rewrite !artistN_text, !updatedArtistN_text.
  split; [| split].
  - split; [| by intros ->].
    intros H. by apply String.app_inj, itoa_inj in H.
  - split; [| by intros ->].
    intros H. by apply String.app_inj, itoa_inj in H.
  - discriminate.
Qed.

Lemma fixture_row_in_plan (k : Z) :
  0 <= k < Benchmark.testRows ->
  In (Benchmark.insert_stmt, [VString (Benchmark.artistN k)])
     Benchmark.full_plan.
Proof.
  intros Hk. right. unfold Benchmark.inserts_from. apply in_map_iff.
  exists (Z.to_nat k). split.
  - by rewrite Z.add_0_l, Z2Nat.id by lia.
  - apply in_seq. unfold Benchmark.testRows in *. lia.
Qed.

Lemma plan_row_index (name : string) :
  In (Benchmark.insert_stmt, [VString name]) Benchmark.full_plan ->
  exists k, 0 <= k < Benchmark.testRows /\ name = Benchmark.artistN k.
Proof.
  intros [H | H]; [discriminate H |].
  unfold Benchmark.inserts_from in H. apply in_map_iff in H as (k & E & Hin).
  apply in_seq in Hin.
  apply (f_equal (fun p : Benchmark.Stmt =>
           match snd p with [VString x] => x | _ => "" end)) in E.
  change (Benchmark.artistN (0 + Z.of_nat k) = name) in E.
  exists (Z.of_nat k).
  split; [unfold Benchmark.testRows in *; lia | by rewrite Z.add_0_l in E].
Qed.

(** X15: Every name looked up with a non-negative index is the name of a row the
    fixture inserts, the row of the index reduced modulo [testRows]. *)
Theorem lookup_names_are_fixture_rows (i : Z) :
  0 <= i ->
  Benchmark.artistN i = Benchmark.artistN (i mod Benchmark.testRows) /\
  0 <= i mod Benchmark.testRows < Benchmark.testRows /\
  In (Benchmark.insert_stmt, [VString (Benchmark.artistN i)])
     Benchmark.full_plan.
Proof.
  intros Hi.
  assert (Hb : 0 <= i mod Benchmark.testRows < Benchmark.testRows)
    by (apply Z.mod_pos_bound; reflexivity).
  assert (E : Benchmark.artistN i =
              Benchmark.artistN (i mod Benchmark.testRows)).
  { apply row_names_by_remainder.
    rewrite !Z.rem_mod_nonneg by (unfold Benchmark.testRows in *; lia).
    by rewrite Z.mod_mod by discriminate. }
  split; [exact E |]. split; [exact Hb |].
  rewrite E. by apply fixture_row_in_plan.
Qed.

Lemma lookup_names_are_fixture_rows_witness :
  Benchmark.artistN 12345 = Benchmark.artistN 345.
Proof.
  apply (lookup_names_are_fixture_rows 12345). discriminate.
Defined.

(** X16: Go's remainder keeps the sign of the dividend: a negative index that is
    not a multiple of [testRows] gives a name with a minus sign in it, which
    is the name of no fixture row. *)
Theorem negative_index_names_no_fixture_row (i : Z) :
  i < 0 -> Z.rem i Benchmark.testRows <> 0 ->
  Benchmark.artistN i =
    "Artist -" ++ itoa (Z.abs (Z.rem i Benchmark.testRows)) /\
  ~ In (Benchmark.insert_stmt, [VString (Benchmark.artistN i)])
       Benchmark.full_plan.
Proof.
  intros Hi Hr.
  assert (Hneg : Z.rem i Benchmark.testRows < 0).
  { pose proof (Z.rem_nonpos i Benchmark.testRows) as H.
    unfold Benchmark.testRows in *. lia. }
  split.
  - rewrite artistN_text.
    destruct (Z.rem i Benchmark.testRows) as [| p | p] eqn:E;
      [lia | lia | reflexivity].
  - intros Hin. apply plan_row_index in Hin as (k & Hk & E).
    apply row_names_by_remainder in E.
    rewrite (Z.rem_small k) in E by exact Hk. lia.
Qed.

Lemma negative_index_names_no_fixture_row_witness :
  Benchmark.artistN (-1) = "Artist -1".
Proof.
  apply (negative_index_names_no_fixture_row (-1)); [reflexivity | discriminate].
Defined.

(** ** The fixture run *)

Lemma inserts_from_S (i : Z) (n : nat) :
  Benchmark.inserts_from i (S n) =
  (Benchmark.insert_stmt, [VString (Benchmark.artistN i)]) ::
  Benchmark.inserts_from (i + 1) n.
Proof.
  unfold Benchmark.inserts_from. cbn [seq map]. rewrite Z.add_0_r. f_equal.
  rewrite <- seq_shift, map_map. apply map_ext. intros k.
  by replace (i + Z.of_nat (S k)) with (i + 1 + Z.of_nat k) by lia.
Qed.

Lemma inserts_from_snoc (i : Z) (n : nat) :
  Benchmark.inserts_from i (S n) =
  (Benchmark.inserts_from i n ++
   [(Benchmark.insert_stmt,
     [VString (Benchmark.artistN (i + Z.of_nat n))])])%list.
Proof.
  unfold Benchmark.inserts_from. by rewrite seq_S, map_app.
Qed.

Lemma inserts_from_prefix (i : Z) (k n : nat) :
  (k <= n)%nat ->
  Benchmark.inserts_from i k `prefix_of` Benchmark.inserts_from i n.
Proof.
  intros H. unfold Benchmark.inserts_from.
  replace n with (k + (n - k))%nat by lia.
  rewrite seq_app, map_app. by apply prefix_app_r.
Qed.

Lemma full_plan_length : length Benchmark.full_plan = 1001%nat.
Proof.
  unfold Benchmark.full_plan, Benchmark.inserts_from.
  cbn [length]. by rewrite length_map, length_seq.
Qed.

Lemma full_plan_NoDup : NoDup Benchmark.full_plan.
Proof.
  unfold Benchmark.full_plan. apply NoDup_cons. split.
  - intros H. apply list_elem_of_In, in_map_iff in H as (k & E & _).
    discriminate E.
  - unfold Benchmark.inserts_from.
    apply (NoDup_fmap_2_strong _ (seq 0 (Z.to_nat Benchmark.testRows)));
      [| apply NoDup_seq].
    intros k1 k2 H1 H2 E.
    apply elem_of_seq in H1, H2.
    apply (f_equal (fun p : Benchmark.Stmt =>
             match snd p with [VString x] => x | _ => "" end)) in E.
    change (Benchmark.artistN (0 + Z.of_nat k1) =
            Benchmark.artistN (0 + Z.of_nat k2)) in E.
    apply row_names_by_remainder in E.
    unfold Benchmark.testRows in *.
    rewrite !Z.rem_small in E by lia. lia.
Qed.

Section FixtureRun.

Context {D Sess Err : Type}.
Variable Open : D -> D * (Sess + Err).
Variable Exec : Sess -> string -> list Value -> D -> D * option Err.

Local Abbreviation Run := (@Benchmark.Run D Sess Err).
Local Abbreviation add_rows := (Benchmark.add_rows Exec).
Local Abbreviation connectAndAddFakeRows :=
  (Benchmark.connectAndAddFakeRows Open Exec).

(** The loop hands the driver one insertion after the other and stops at the
    first that fails. *)
Lemma add_rows_run (sess : Sess) (n : nat) :
  forall (i : Z) (d : D) (done : list Benchmark.Stmt),
    match Benchmark.result (add_rows n i sess d done) with
    | inl s' =>
        s' = sess /\
        Benchmark.issued (add_rows n i sess d done) =
          (done ++ Benchmark.inserts_from i n)%list
    | inr err =>
        exists (k : nat) (d' : D),
          (k < n)%nat /\
          Benchmark.issued (add_rows n i sess d done) =
            (done ++ Benchmark.inserts_from i (S k))%list /\
          Exec sess Benchmark.insert_stmt
            [VString (Benchmark.artistN (i + Z.of_nat k))] d' =
            (Benchmark.db (add_rows n i sess d done), Some err)
    end.
Proof.
  induction n as [| n IH]; intros i d done.
  - cbn. split; [reflexivity |].
    unfold Benchmark.inserts_from. cbn. by rewrite app_nil_r.
  - cbn [Benchmark.add_rows].
    destruct (Exec sess Benchmark.insert_stmt
                [VString (Benchmark.artistN i)] d) as [d' [err |]] eqn:E.
    + cbn [Benchmark.result Benchmark.issued Benchmark.db].
      exists 0%nat, d. split; [lia |]. split.
      * rewrite inserts_from_S. unfold Benchmark.inserts_from.
        reflexivity.
      * by rewrite Z.add_0_r.
    + specialize (IH (i + 1) d'
        (done ++ [(Benchmark.insert_stmt,
                   [VString (Benchmark.artistN i)])])%list).
      destruct (Benchmark.result (add_rows n (i + 1) sess d' _)) as [s' | err].
      * destruct IH as [-> IH]. split; [reflexivity |].
        by rewrite IH, inserts_from_S, <- app_assoc.
      * destruct IH as (k & d'' & Hk & Hi & He).
        exists (S k), d''. split; [lia |]. split.
        -- by rewrite Hi, (inserts_from_S i (S k)), <- app_assoc.
        -- rewrite <- He.
           by replace (i + Z.of_nat (S k)) with (i + 1 + Z.of_nat k) by lia.
Qed.

(** X17: [connectAndAddFakeRows] returns a session only after it has handed the
    driver the whole plan: the truncation and then the 1000 insertions, whose
    names are pairwise distinct.  When it returns an error, the error is that
    of [db.Open], with nothing handed to the driver, or that of the last
    statement handed to it, with the statements handed over being an initial
    part of the plan and none following the one that failed. *)
Theorem fixture_runs_plan_until_first_error (d : D) :
  match Benchmark.result (connectAndAddFakeRows d) with
  | inl sess =>
      snd (Open d) = inl sess /\
      Benchmark.issued (connectAndAddFakeRows d) = Benchmark.full_plan
  | inr err =>
      Benchmark.issued (connectAndAddFakeRows d) `prefix_of`
        Benchmark.full_plan /\
      (snd (Open d) = inr err /\ Benchmark.issued (connectAndAddFakeRows d) = []
       \/
       exists (sess : Sess) (stmt : Benchmark.Stmt) (d' : D),
         snd (Open d) = inl sess /\
         last (Benchmark.issued (connectAndAddFakeRows d)) = Some stmt /\
         Exec sess (fst stmt) (snd stmt) d' =
           (Benchmark.db (connectAndAddFakeRows d), Some err))
  end /\
  length Benchmark.full_plan = 1001%nat /\
  NoDup Benchmark.full_plan.
Proof.
  split; [| split; [apply full_plan_length | apply full_plan_NoDup]].
  unfold Benchmark.connectAndAddFakeRows.
  destruct (Open d) as [d0 [sess | err]] eqn:EO; cbn [snd].
  2: { cbn. split; [apply prefix_nil | by left]. }
  destruct (Exec sess Benchmark.truncate_stmt [] d0) as [d1 [err |]] eqn:ET.
  { cbn. split.
    - by exists (Benchmark.inserts_from 0 (Z.to_nat Benchmark.testRows)).
    - right. by exists sess, (Benchmark.truncate_stmt, []), d0. }
  pose proof (add_rows_run sess (Z.to_nat Benchmark.testRows) 0 d1
                [(Benchmark.truncate_stmt, [])]) as H.
  destruct (Benchmark.result (add_rows _ 0 sess d1 _)) as [s' | err].
  - destruct H as [-> H]. split; [reflexivity | exact H].
  - destruct H as (k & d' & Hk & Hi & He). rewrite Hi. split.
    + apply (prefix_app [_]), inserts_from_prefix. lia.
    + right.
      exists sess,
        (Benchmark.insert_stmt,
         [VString (Benchmark.artistN (0 + Z.of_nat k))]), d'.
      split; [reflexivity |]. split; [| exact He].
      by rewrite inserts_from_snoc, app_assoc, last_snoc.
Qed.

End FixtureRun.

(** ** Any backend *)


(** * Concrete runs of the further properties *)

Lemma call_below_Fatal_on_default_backend :
  Info Doubles.std [Doubles.main_go 3] [VString "started"]
    (Doubles.state_with LogLevelWarn None) =
  Ok tt (Doubles.state_with LogLevelWarn None).
Proof.
  unfold Info.
  rewrite (proj2 (call_below_Fatal_is_print_or_nothing Doubles.std
             (Doubles.state_with LogLevelWarn None)
             [logger_go 149; logger_go 184; Doubles.main_go 3]
             LogLevelInfo "" [VString "started"] eq_refl)).
  reflexivity.
Defined.

(** A call at Panic: the formatted one on a backend of which only the
    formatted panic and fatal operations do not return, the plain one on a
    backend that ends its operations as the default one does. *)
Lemma Panic_calls_end_with_panic_operation :
  map call
    (emitted (Doubles.state_with LogLevelWarn (Some Doubles.half))
       (logf Doubles.std [logger_go 131; logger_go 209; Doubles.main_go 8]
          LogLevelPanic "corrupt %d" [VInt 3]
          (Doubles.state_with LogLevelWarn (Some Doubles.half)))) =
  [Logger.CPanicf
     ("upper/db: log_level=PANIC file=main.go:8" ++ newline ++ "corrupt %d")
     [VInt 3]] /\
  log Doubles.std [logger_go 149; logger_go 212; Doubles.main_go 8]
    LogLevelPanic [VString "corrupt"] (Doubles.state_with LogLevelWarn None) =
  Panicked
    (BackendPanic
       ("upper/db: log_level=PANIC file=main.go:8" ++ newline ++ "corrupt"))
    {| coll := {| level := LogLevelWarn; logger := None |};
       world := ["std.Panic"];
       calls :=
         [event Doubles.std
            (Logger.CPanic
               [VString ("upper/db: log_level=PANIC file=main.go:8" ++
                         newline);
                VString "corrupt"])] |}.
Proof.
  assert (H : LogLevelPanic <= LogLevelPanic) by discriminate.
  split.
  - apply (proj1 (call_ends_with_panic_operation Doubles.std
                    (Doubles.state_with LogLevelWarn (Some Doubles.half))
                    [logger_go 131; logger_go 209; Doubles.main_go 8]
                    LogLevelPanic "corrupt %d" [VInt 3] H) eq_refl).
  - rewrite (proj1 (proj2 (call_ends_with_panic_operation Doubles.std
                    (Doubles.state_with LogLevelWarn None)
                    [logger_go 149; logger_go 212; Doubles.main_go 8]
                    LogLevelPanic "" [VString "corrupt"] H) eq_refl)).
    reflexivity.
Defined.

(** A call at Fatal, on the same two backends. *)
Lemma Fatal_calls_end_with_fatal_operation :
  map call
    (emitted (Doubles.state_with LogLevelWarn (Some Doubles.half))
       (logf Doubles.std [logger_go 131; logger_go 202; Doubles.main_go 8]
          LogLevelFatal "disk full" []
          (Doubles.state_with LogLevelWarn (Some Doubles.half)))) =
  [Logger.CFatalf
     ("upper/db: log_level=FATAL file=main.go:8" ++ newline ++ "disk full")
     []] /\
  log Doubles.std [logger_go 149; logger_go 205; Doubles.main_go 8]
    LogLevelFatal [VString "disk full"]
    (Doubles.state_with LogLevelWarn None) =
  Exited 1
    {| coll := {| level := LogLevelWarn; logger := None |};
       world := ["std.Fatal"];
       calls :=
         [event Doubles.std
            (Logger.CFatal
               [VString ("upper/db: log_level=FATAL file=main.go:8" ++
                         newline);
                VString "disk full"])] |}.
Proof.
  assert (H : LogLevelFatal <= LogLevelFatal < LogLevelPanic)
    by (split; [discriminate | reflexivity]).
  split.
  - apply (proj1 (call_ends_with_fatal_operation Doubles.std
                    (Doubles.state_with LogLevelWarn (Some Doubles.half))
                    [logger_go 131; logger_go 202; Doubles.main_go 8]
                    LogLevelFatal "disk full" [] H) eq_refl).
  - rewrite (proj1 (proj2 (call_ends_with_fatal_operation Doubles.std
                    (Doubles.state_with LogLevelWarn None)
                    [logger_go 149; logger_go 205; Doubles.main_go 8]
                    LogLevelFatal "" [VString "disk full"] H) eq_refl)).
    reflexivity.
Defined.


Lemma threshold_Trace_prints_Tracef :
  map (fun e => Logger.kind (call e))
    (emitted (Doubles.state_with LogLevelTrace None)
       (Tracef Doubles.std [Doubles.main_go 2] "x" []
          (Doubles.state_with LogLevelTrace None))) = [Logger.KPrint].
Proof.
  assert (H : level (coll (Doubles.state_with LogLevelTrace None)) <=
              LogLevelTrace) by discriminate.
  apply (Forall_inv
           (threshold_at_Trace_prints_every_wrapper_below_Fatal Doubles.std
              (Doubles.state_with LogLevelTrace None) [Doubles.main_go 2]
              "x" [] H)).
Defined.


(** * The configuration across a call *)

Section SharedFrame.

Context {W : Type}.
Variable backends : sharedCollector.Ref -> Logger.t (@sharedCollector.State W).
Variable defaultLogger : sharedCollector.Ref.

Local Abbreviation SState := (@sharedCollector.State W).
Local Abbreviation SM := (@sharedCollector.M W).
Local Abbreviation scoll := (@sharedCollector.coll W).
Local Abbreviation sinvoke := (sharedCollector.invoke backends).
Local Abbreviation sLogger := (sharedCollector.Logger defaultLogger).
Local Abbreviation slogf := (sharedCollector.logf backends defaultLogger).
Local Abbreviation slog := (sharedCollector.log backends defaultLogger).
Local Abbreviation resolved := (sharedCollector.resolved defaultLogger).
Local Abbreviation resolves_to_keeper :=
  (sharedCollector.resolves_to_keeper backends defaultLogger).
Local Abbreviation frames := (sharedCollector.frames backends defaultLogger).

Lemma frames_ret {A} (a : A) : frames (sharedCollector.ret a).
Proof. by intros s _. Qed.

Lemma frames_bind {A B} (m : SM A) (k : A -> SM B) :
  frames m -> (forall a, frames (k a)) -> frames (sharedCollector.bind m k).
Proof.
  intros Hm Hk s Hs. unfold sharedCollector.bind.
  specialize (Hm s Hs).
  destruct (m s) as [a s' | code s' | pv s']; cbn in Hm; [| exact Hm..].
  rewrite <- Hm. apply Hk. unfold sharedCollector.resolves_to_keeper. by rewrite Hm.
Qed.

Lemma frames_when (b : bool) (m : SM unit) :
  frames m -> frames (sharedCollector.when b m).
Proof. intros Hm. destruct b; [exact Hm | apply frames_ret]. Qed.

Lemma frames_Enabled (lvl : LogLevel) : frames (sharedCollector.Enabled lvl).
Proof. by intros s _. Qed.

Lemma frames_resolved_invoke (c : Logger.Call) :
  frames (sharedCollector.bind sLogger (fun l => sinvoke l c)).
Proof.
  intros s Hs. unfold sharedCollector.bind.
  assert (sLogger s = sharedCollector.Ok (Some (resolved (scoll s))) s) as ->.
  { unfold sharedCollector.Logger, sharedCollector.resolved.
    by destruct (sharedCollector.logger (scoll s)). }
  unfold sharedCollector.invoke.
  specialize (Hs c {| sharedCollector.coll := scoll s;
                      sharedCollector.world := sharedCollector.world s;
                      sharedCollector.calls :=
                        sharedCollector.calls s ++
                        [{| sharedCollector.target := resolved (scoll s);
                            sharedCollector.call := c |}] |}).
  destruct (Logger.run _ c _) as [s2 []]; exact Hs.
Qed.

Lemma frames_logf (stack : list Frame) (lvl : LogLevel) (f : string)
    (v : list Value) : frames (slogf stack lvl f v).
Proof.
  unfold sharedCollector.logf.
  repeat first
    [ apply frames_resolved_invoke
    | apply frames_Enabled
    | apply frames_when
    | apply frames_bind; [| intros ?] ].
Qed.

Lemma frames_log (stack : list Frame) (lvl : LogLevel) (v : list Value) :
  frames (slog stack lvl v).
Proof.
  unfold sharedCollector.log.
  repeat first
    [ apply frames_resolved_invoke
    | apply frames_Enabled
    | apply frames_when
    | apply frames_bind; [| intros ?] ].
Qed.

(** C10, as the code has it: [SetLevel] writes the threshold and leaves the
    backend field, so that an emit resolves to the backend it resolved to
    before; [SetLogger] writes the backend field and leaves the threshold,
    so that [Enabled] answers as it answered before; and a dispatch on
    either path, at any level and however the backend operations end, leaves
    the collector with the threshold and the backend field it had whenever
    the operations of the backend it resolves to leave them: [log] and [logf]
    write neither field themselves. *)
Theorem configuration_kept_unless_backend_changes_it (s : SState)
    (T L : LogLevel) (l : option sharedCollector.Ref) (stack : list Frame)
    (lvl : LogLevel) (f : string) (v : list Value) :
  (let s1 := sharedCollector.final (sharedCollector.SetLevel T s) in
   sharedCollector.returned (sharedCollector.SetLevel T s) = true /\
   sharedCollector.level (scoll s1) = T /\
   sharedCollector.logger (scoll s1) = sharedCollector.logger (scoll s) /\
   sLogger s1 = sharedCollector.Ok (Some (resolved (scoll s))) s1) /\
  (let s2 := sharedCollector.final (sharedCollector.SetLogger l s) in
   sharedCollector.returned (sharedCollector.SetLogger l s) = true /\
   sharedCollector.logger (scoll s2) = l /\
   sharedCollector.level (scoll s2) = sharedCollector.level (scoll s) /\
   sharedCollector.Enabled L s2 =
     sharedCollector.Ok (L >=? sharedCollector.level (scoll s)) s2) /\
  (sharedCollector.KeepsCollector (backends (resolved (scoll s))) ->
   scoll (sharedCollector.final (slogf stack lvl f v s)) = scoll s /\
   scoll (sharedCollector.final (slog stack lvl v s)) = scoll s).
Proof.
  split; [| split].
  - cbn. repeat split. unfold sharedCollector.Logger, sharedCollector.resolved.
    cbn. by destruct (sharedCollector.logger (scoll s)).
  - cbn. repeat split.
  - intros H. split; [by apply frames_logf | by apply frames_log].
Qed.

End SharedFrame.

(** A backend that returns from every operation and, in its print operation,
    calls [SetLevel]: a call at Warn under the threshold Warn returns with the
    threshold at Trace. *)
Lemma returning_backend_changes_threshold :
  sharedCollector.returned
    (sharedCollector.log (fun _ => SharedDoubles.meddling) 0%nat
       [logger_go 149; logger_go 191; Doubles.main_go 4] LogLevelWarn
       [VString "disk"] (SharedDoubles.state_with LogLevelWarn None)) = true /\
  sharedCollector.level
    (sharedCollector.coll (SharedDoubles.state_with LogLevelWarn None)) =
    LogLevelWarn /\
  sharedCollector.level
    (sharedCollector.coll
       (sharedCollector.final
          (sharedCollector.log (fun _ => SharedDoubles.meddling) 0%nat
             [logger_go 149; logger_go 191; Doubles.main_go 4] LogLevelWarn
             [VString "disk"] (SharedDoubles.state_with LogLevelWarn None)))) =
    LogLevelTrace /\
  LogLevelTrace <> LogLevelWarn.
Proof. repeat split. discriminate. Qed.

(** With a backend that changes nothing, a call at Panic leaves the collector
    as it was. *)
Lemma configuration_kept_on_quiet_backend :
  sharedCollector.KeepsCollector SharedDoubles.quiet /\
  sharedCollector.coll
    (sharedCollector.final
       (sharedCollector.logf (fun _ => SharedDoubles.quiet) 0%nat
          [logger_go 131; logger_go 209; Doubles.main_go 4] LogLevelPanic
          "boom %d" [VInt 7] (SharedDoubles.state_with LogLevelWarn None))) =
  sharedCollector.coll (SharedDoubles.state_with LogLevelWarn None).
Proof.
  split.
  - intros c s. destruct c; reflexivity.
  - apply (configuration_kept_unless_backend_changes_it
             (fun _ => SharedDoubles.quiet) 0%nat
             (SharedDoubles.state_with LogLevelWarn None)
             LogLevelWarn LogLevelWarn None
             [logger_go 131; logger_go 209; Doubles.main_go 4] LogLevelPanic
             "boom %d" [VInt 7]).
    intros c s. destruct c; reflexivity.
Defined.

(** ** The two collectors agree *)

Section Agreement.

Context {W : Type}.
Variable objects : sharedCollector.Ref -> Logger.t W.
Variable defaultRef : sharedCollector.Ref.

Local Abbreviation lifted := (fun r => Embedding.lift (objects r)).
Local Abbreviation agree := (@Embedding.agree W objects).

Lemma lift_keeps_collector (b : Logger.t W) :
  sharedCollector.KeepsCollector (Embedding.lift b).
Proof.
  intros c s.
  assert (H : forall op : W -> W * Logger.Outcome,
            sharedCollector.coll (fst (Embedding.lift_op op s)) =
            sharedCollector.coll s).
  { intros op. unfold Embedding.lift_op.
    by destruct (op (sharedCollector.world s)). }
  destruct c; apply H.
Qed.

Lemma run_lift (b : Logger.t W) (c : Logger.Call)
    (s : @sharedCollector.State W) :
  Logger.run (Embedding.lift b) c s =
  Embedding.lift_op (Logger.run b c) s.
Proof. by destruct c. Qed.

Lemma agree_ret {A} (a : A) :
  agree (sharedCollector.ret a) (loggingCollector.ret a).
Proof. by intros s. Qed.

Lemma agree_bind {A B} (m : sharedCollector.M A) (m' : loggingCollector.M A)
    (k : A -> sharedCollector.M B) (k' : A -> loggingCollector.M B) :
  agree m m' -> (forall a, agree (k a) (k' a)) ->
  agree (sharedCollector.bind m k) (loggingCollector.bind m' k').
Proof.
  intros Hm Hk s. unfold sharedCollector.bind, loggingCollector.bind.
  rewrite <- (Hm s). destruct (m s) as [a s' | code s' | pv s']; cbn;
    [apply Hk | reflexivity..].
Qed.

Lemma agree_when (b : bool) (m : sharedCollector.M unit)
    (m' : loggingCollector.M unit) :
  agree m m' ->
  agree (sharedCollector.when b m) (loggingCollector.when b m').
Proof. intros Hm. destruct b; [exact Hm | apply agree_ret]. Qed.

Lemma agree_Enabled (lvl : LogLevel) :
  agree (sharedCollector.Enabled lvl) (loggingCollector.Enabled lvl).
Proof. by intros s. Qed.

Lemma agree_resolved_invoke (c : Logger.Call) :
  agree
    (sharedCollector.bind (sharedCollector.Logger defaultRef)
       (fun l => sharedCollector.invoke lifted l c))
    (loggingCollector.bind (loggingCollector.Logger (objects defaultRef))
       (fun l => loggingCollector.invoke l c)).
Proof.
  intros s. unfold sharedCollector.bind, loggingCollector.bind,
    sharedCollector.Logger, loggingCollector.Logger,
    loggingCollector.defaultLogger.
  cbn [Embedding.read_state loggingCollector.coll loggingCollector.logger].
  destruct (sharedCollector.logger (sharedCollector.coll s)) as [r |];
    cbn [fmap option_fmap option_map];
    unfold sharedCollector.invoke, loggingCollector.invoke;
    rewrite run_lift; unfold Embedding.lift_op;
    cbn [sharedCollector.world Embedding.read_state loggingCollector.world];
    destruct (Logger.run _ c (sharedCollector.world s)) as [w' []];
    cbn; unfold Embedding.read_state; cbn; by rewrite map_app.
Qed.

(** A dispatch in the collector whose backends could reach it, made with
    backends that do not, is the dispatch of the collector whose backends are
    handed the world only. *)
Lemma dispatch_agrees (stack : list Frame) (lvl : LogLevel) (f : string)
    (v : list Value) :
  agree (sharedCollector.logf lifted defaultRef stack lvl f v)
          (loggingCollector.logf (objects defaultRef) stack lvl f v) /\
  agree (sharedCollector.log lifted defaultRef stack lvl v)
          (loggingCollector.log (objects defaultRef) stack lvl v).
Proof.
  unfold sharedCollector.logf, loggingCollector.logf, sharedCollector.log,
    loggingCollector.log.
  split;
    repeat first
      [ apply agree_resolved_invoke
      | apply agree_Enabled
      | apply agree_when
      | apply agree_bind; [| intros ?] ].
Qed.

End Agreement.
